(** * dmarc_parser: a shallow embedding of the DMARC report decoder

    The Python module [dmarc_parser.py] reads DMARC aggregate reports out
    of zip and gzip archives, turns every [record] element of the XML into
    a [DMARCRecord], resolves the sender address through a process-wide
    reverse-DNS cache and hands the reports to a persistent store.

    The embedding follows the module function by function, as Python 3
    runs it.  Python exceptions and the mutable globals are threaded
    through a small state-and-exception monad [M]; the parsed XML is a
    tree of BeautifulSoup page elements; the cache is a finite map.  What
    belongs to the interpreter, the network, the operating system and the
    report store is a parameter: the built-ins [int] and
    [utcfromtimestamp], [socket.gethostbyaddr], [os.walk], [os.makedirs],
    the write of a file, [pickle.dump] and the two operations of the
    store.  The [print] calls are left out, except that the two counters
    of the closing summary are the value [parse_reports_in_directory]
    returns. *)

From Stdlib Require Import ZArith Ascii String List Lia.
From stdpp Require Import base option list gmap strings fin_maps.

Local Open Scope string_scope.
Local Open Scope Z_scope.

(** ** Python strings

    The module is read as Python 3 runs it.  The [str] values it handles
    are strings of characters; the few methods the module calls on them
    are written out here. *)

(** [s.endswith(suffix)]: some tail of [s] is [suffix]. *)
Fixpoint endswith (s suffix : string) : bool :=
  if String.eqb s suffix then true
  else match s with
       | EmptyString => false
       | String _ s' => endswith s' suffix
       end.

(** [s.split(sep)] for a separator of one character: the pieces between
    the separators, never an empty list. *)
Fixpoint split (sep : ascii) (s : string) : list string :=
  match s with
  | EmptyString => [EmptyString]
  | String c s' =>
      if Ascii.eqb c sep then EmptyString :: split sep s'
      else match split sep s' with
           | [] => [String c EmptyString]
           | w :: ws => String c w :: ws
           end
  end.

(** [l[-1]] on a list of strings that is not empty. *)
Definition item_last (l : list string) : string := List.last l EmptyString.

(** [s.replace(old, new)] for a non-empty [old]: scanning from the left,
    every occurrence of [old] that does not overlap an earlier one is
    replaced.  [skip] counts the characters of the occurrence just
    replaced that are still to be passed over. *)
Fixpoint replace_from (old new : string) (skip : nat) (s : string) : string :=
  match s with
  | EmptyString => EmptyString
  | String c s' =>
      match skip with
      | S k => replace_from old new k s'
      | O =>
          if String.prefix old s
          then new ++ replace_from old new (Nat.pred (String.length old)) s'
          else String c (replace_from old new O s')
      end
  end.

Definition replace (old new s : string) : string := replace_from old new O s.

(** *** Decimal numerals

    [int] on a string of ASCII characters, as the examples evaluate it. *)

(** Whitespace as [int] sees it. *)
Definition isspace (c : ascii) : bool :=
  let n := nat_of_ascii c in
  (Nat.eqb n 32 || (Nat.leb 9 n && Nat.leb n 13))%bool.

Fixpoint lstrip (s : string) : string :=
  match s with
  | String c s' => if isspace c then lstrip s' else s
  | EmptyString => EmptyString
  end.

Fixpoint rstrip (s : string) : string :=
  match s with
  | EmptyString => EmptyString
  | String c s' =>
      match rstrip s' with
      | EmptyString => if isspace c then EmptyString else String c EmptyString
      | t => String c t
      end
  end.

Definition strip (s : string) : string := rstrip (lstrip s).

Definition isdigit (c : ascii) : bool :=
  let n := nat_of_ascii c in (Nat.leb 48 n && Nat.leb n 57)%bool.

(** The value of a run of decimal digits, most significant first.  One
    underscore may stand between two digits; [after_digit] tells whether
    the character just read was a digit. *)
Fixpoint digits_value (acc : Z) (after_digit : bool) (s : string) : option Z :=
  match s with
  | EmptyString => if after_digit then Some acc else None
  | String c s' =>
      if isdigit c
      then digits_value (10 * acc + (Z.of_nat (nat_of_ascii c) - 48)) true s'
      else if Ascii.eqb c "_" && after_digit then digits_value acc false s'
      else None
  end.

Definition unsigned_value (s : string) : option Z := digits_value 0 false s.

(** [int(s)] on a string of ASCII characters: surrounding whitespace is
    dropped, one sign is allowed, and at least one decimal digit must
    follow, with single underscores allowed between digits; [None] stands
    for the [ValueError] Python raises otherwise.  Integers are unbounded. *)
Definition decimal_int (s : string) : option Z :=
  match strip s with
  | String "-"%char d => Z.opp <$> unsigned_value d
  | String "+"%char d => unsigned_value d
  | t => unsigned_value t
  end.

(** ** BeautifulSoup page elements

    What [bs(xml_file, features='xml')] returns: a tree whose nodes are
    tags with their contents in document order, and whose leaves are the
    strings between them. *)
#[local] Unset Elimination Schemes.
Inductive PageElement : Type :=
| NavigableString (s : string)
| Tag (name : string) (contents : list PageElement).
#[local] Set Elimination Schemes.

(** [tag.descendants]: every element below [e], in document order. *)
Fixpoint descendants (e : PageElement) : list PageElement :=
  match e with
  | NavigableString _ => []
  | Tag _ contents =>
      (fix below (l : list PageElement) : list PageElement :=
         match l with
         | [] => []
         | c :: l' => c :: descendants c ++ below l'
         end) contents
  end.

Definition is_tag_named (name : string) (e : PageElement) : bool :=
  match e with
  | NavigableString _ => false
  | Tag n _ => String.eqb n name
  end.

(** [tag.find_all(name)]: the tags of that name below [e]. *)
Definition find_all (name : string) (e : PageElement) : list PageElement :=
  List.filter (is_tag_named name) (descendants e).

(** [tag.find(name)], which is also what the attribute access [tag.name]
    does: the first tag of that name below [e], or [None]. *)
Definition find (name : string) (e : PageElement) : option PageElement :=
  head (find_all name e).

(** [element.text]: the strings below the element, concatenated. *)
Fixpoint text (e : PageElement) : string :=
  match e with
  | NavigableString s => s
  | Tag _ contents =>
      (fix join (l : list PageElement) : string :=
         match l with
         | [] => EmptyString
         | c :: l' => text c ++ join l'
         end) contents
  end.


(** [x in l] for a list of strings. *)
Definition in_list (x : string) (l : list string) : bool :=
  existsb (String.eqb x) l.

(** ** The entities the decoder builds *)

(** One [dict(domain=..., result=...)] of [spf_results]. *)
Record spf_entry : Type := {
  spf_domain : string;
  spf_result : string
}.

(** One [dict(result=..., domain=..., selector=..., human_result=...)] of
    [dkim_signatures]. *)
Record dkim_entry : Type := {
  result : string;
  domain : string;
  selector : option string;
  human_result : option string
}.

(** The attributes of a [DMARCRecord] object; [None] is Python's [None]. *)
Record DMARCRecord : Type := {
  ip : string;
  host : option string;
  disposition : string;
  reason : option string;
  spf_pass : option bool;
  dkim_pass : option bool;
  header_from : option string;
  envelope_from : option string;
  count : Z;
  spf_results : list spf_entry;
  dkim_signatures : list dkim_entry
}.

(** The attributes of a [DMARCReport] object.  The two dates are the
    instants [datetime.utcfromtimestamp] builds, kept as seconds since the
    epoch. *)
Record DMARCReport : Type := {
  report_id : string;
  filename : string;
  receiver : string;
  start_date : Z;
  end_date : Z;
  records : list DMARCRecord
}.

(** [report.add_record(record)] *)
Definition add_record (report : DMARCReport) (record : DMARCRecord) : DMARCReport :=
  {| report_id := report_id report; filename := filename report;
     receiver := receiver report; start_date := start_date report;
     end_date := end_date report; records := records report ++ [record] |}.

(** ** Exceptions, the file system and the world *)

(** The exceptions the module can meet. *)
Inductive exn : Type :=
| AttributeError | AssertionError | ValueError | OverflowError
| TypeError | UnicodeDecodeError | KeyError
| herror | gaierror | timeout
| BadZipfile | IOError | OSError | EOFError | zlib_error | RuntimeError.

(** What [socket.gethostbyaddr] does with an address. *)
Inductive lookup : Type :=
| resolved (hostname : string)
| fails (e : exn).

(** A compressed stream, by what reading it to its end gives: the soup
    [bs] builds from the bytes, or the exception with which the library
    gives up on a stream that is truncated, corrupt or encrypted. *)
Inductive stream : Type :=
| readable (soup : PageElement)
| broken (e : exn).

(** What a regular file holds.  An archive is given by what the library
    reads out of it: the members of a zip file in the order of
    [namelist], each a name and a stream, where two members may bear the
    same name; and for a gzip file its stream.  Any other file is a byte
    string. *)
Inductive file_data : Type :=
| zip_archive (members : list (string * stream))
| gzip_file (gzipfile : stream)
| bytes (b : string).

Inductive node : Type :=
| directory
| regular (data : file_data).

(** Modelled from the spec: the class [DMARCStorage] of the module
    [dmarc_storage], which the parser imports, is not part of the sources;
    the spec gives the two operations of the report store,
    [report_already_exists(filename) -> bool] and [save_new_report(report)]. *)
Class Storage (S : Type) : Type := {
  report_already_exists : S -> string -> bool;
  save_new_report : S -> DMARCReport -> S
}.

(** The built-ins whose behaviour is the interpreter's and not the
    module's: [int] on a string, where [None] stands for the [ValueError]
    it raises; the exception with which
    [datetime.datetime.utcfromtimestamp] refuses a time stamp, if it
    refuses it (a [ValueError] for a year outside 1 to 9999, an
    [OverflowError] or [OSError] beyond what the platform counts); and
    whether the bytes of a file decode as text in the encoding of the
    locale, on which depends what reading the file in text mode raises.
    The statements hold for every interpreter. *)
Class Interpreter : Type := {
  int : string -> option Z;
  utcfromtimestamp_refuses : Z -> option exn;
  decodes_as_text : file_data -> bool
}.

(** The result of a call: a value, or a raised exception. *)
Inductive outcome (A : Type) : Type :=
| Ok (a : A)
| Raise (e : exn).
Arguments Ok {A} a.
Arguments Raise {A} e.

(** Everything the module reads and writes: the global [_rdns_records],
    the addresses [socket.gethostbyaddr] was called with (oldest first),
    the files, and the [persistent_storage] object. *)
Record world (S : Type) : Type := World {
  _rdns_records : gmap string (option string);
  gethostbyaddr_calls : list string;
  files : gmap string node;
  persistent_storage : S
}.
Arguments World {S} _ _ _ _.
Arguments _rdns_records {S} w.
Arguments gethostbyaddr_calls {S} w.
Arguments files {S} w.
Arguments persistent_storage {S} w.

Definition M (S A : Type) : Type := world S -> outcome A * world S.

Definition ret {S A : Type} (a : A) : M S A := fun w => (Ok a, w).

Definition raise {S A : Type} (e : exn) : M S A := fun w => (Raise e, w).

Definition bind {S A B : Type} (m : M S A) (k : A -> M S B) : M S B :=
  fun w =>
    match m w with
    | (Ok a, w') => k a w'
    | (Raise e, w') => (Raise e, w')
    end.

Notation "x <- m ;; k" := (bind m (fun x => k))
  (at level 20, m at level 99, k at level 200, right associativity).
Notation "m1 ;; m2" := (bind m1 (fun _ => m2))
  (at level 100, m2 at level 200, right associativity).

(** [assert b] *)
Definition assert {S : Type} (b : bool) : M S unit :=
  if b then ret tt else raise AssertionError.

(** [o.name] on an object that may be [None]: attribute access on [None]
    raises [AttributeError], on a tag it is [find]. *)
Definition dot {S : Type} (o : option PageElement) (name : string) : M S (option PageElement) :=
  match o with
  | None => raise AttributeError
  | Some tag => ret (find name tag)
  end.

(** [str(o.text)] on an object that may be [None]. *)
Definition dot_text {S : Type} (o : option PageElement) : M S string :=
  match o with
  | None => raise AttributeError
  | Some e => ret (text e)
  end.

(** [int(s)], raising [ValueError]. *)
Definition int_or_raise {S : Type} `{!Interpreter} (s : string) : M S Z :=
  match int s with
  | Some z => ret z
  | None => raise ValueError
  end.

(** [datetime.datetime.utcfromtimestamp(t)]: the instant, kept as the
    time stamp it was built from, unless the time stamp is refused. *)
Definition utcfromtimestamp {S : Type} `{!Interpreter} (t : Z) : M S Z :=
  match utcfromtimestamp_refuses t with
  | None => ret t
  | Some e => raise e
  end.

(** [bs(xml_file, features='xml')]: the stream is read to its end and the
    soup is built. *)
Definition bs {S : Type} (xml_file : stream) : M S PageElement :=
  match xml_file with
  | readable soup => ret soup
  | broken e => raise e
  end.

(** ** The module *)

Section dmarc_parser.

Context {S : Type} `{!Storage S} `{!Interpreter}.

(** The network, as [socket.gethostbyaddr] shows it: the answer to a
    query may depend on the queries made before it. *)
Variable gethostbyaddr : list string -> string -> lookup.

(** [os.walk(report_dir)]: the [(root, directories, files)] triples of the
    directory tree. *)
Variable os_walk : string -> list (string * list string * list string).

(** [pickle.dump] on a cache, as the bytes written. *)
Variable pickle_dump : gmap string (option string) -> string.

(** The two calls that change the file system.  [os.makedirs(path)]
    creates a directory and the directories above it that are missing;
    [open(filepath, "wb")] followed by one write and the close of the
    [with] block creates or truncates a file and writes the bytes.  What
    they do with the world, and when they raise, is the operating
    system's. *)
Variable os_makedirs : string -> M S unit.
Variable write_file : string -> string -> M S unit.

Abbreviation world := (world S).
Abbreviation M := (M S).

(** *** [_lookup_ip] *)
Definition _lookup_ip (ip_address : string) : M (option string) :=
  fun w =>
    match _rdns_records w !! ip_address with
    | None =>
        let calls := (gethostbyaddr_calls w ++ [ip_address])%list in
        match gethostbyaddr (gethostbyaddr_calls w) ip_address with
        | resolved hostname =>
            (Ok (Some hostname),
             World (<[ip_address := Some hostname]> (_rdns_records w)) calls
                   (files w) (persistent_storage w))
        | fails herror =>
            (Ok None, World (_rdns_records w) calls (files w) (persistent_storage w))
        | fails e =>
            (Raise e, World (_rdns_records w) calls (files w) (persistent_storage w))
        end
    | Some hostname => (Ok hostname, w)
    end.

(** *** [DMARCRecord.__init__] *)

(** The loop over [xml_spf_results]; [acc] is [self.spf_results]. *)
Fixpoint for_spf_results (xml_spf_results : list PageElement) (acc : list spf_entry)
  : M (list spf_entry) :=
  match xml_spf_results with
  | [] => ret acc
  | spf_result :: rest =>
      _result <- dot_text (find "result" spf_result) ;;
      _domain <- dot_text (find "domain" spf_result) ;;
      for_spf_results rest (acc ++ [{| spf_domain := _domain; spf_result := _result |}])
  end.

(** The test that guards [self.dkim_signatures.append]. *)
Definition dkim_kept (_result _domain : string) : bool :=
  negb (in_list _result ["none"; "neutral"]) && negb (String.eqb _domain "not.evaluated").

(** The loop over [xml_dkim_signatures]; [acc] is [self.dkim_signatures]. *)
Fixpoint for_dkim_signatures (xml_dkim_signatures : list PageElement) (acc : list dkim_entry)
  : M (list dkim_entry) :=
  match xml_dkim_signatures with
  | [] => ret acc
  | dkim_sig :: rest =>
      _result <- dot_text (find "result" dkim_sig) ;;
      _domain <- dot_text (find "domain" dkim_sig) ;;
      let _selector := text <$> find "selector" dkim_sig in
      let _human_result := text <$> find "human_result" dkim_sig in
      if dkim_kept _result _domain
      then for_dkim_signatures rest
             (acc ++ [{| result := _result; domain := _domain;
                         selector := _selector; human_result := _human_result |}])
      else for_dkim_signatures rest acc
  end.

Definition DMARCRecord_init (record_xml : PageElement) : M DMARCRecord :=
  (* Sender Metadata *)
  ip_ <- dot_text (find "source_ip" record_xml) ;;
  host_ <- _lookup_ip ip_ ;;
  (* Policy Result *)
  policy_evaluated <- dot (find "row" record_xml) "policy_evaluated" ;;
  disposition_tag <- dot policy_evaluated "disposition" ;;
  disposition_ <- dot_text disposition_tag ;;
  spf <- dot policy_evaluated "spf" ;;
  spf_pass_ <-
    match spf with
    | Some spf_tag =>
        assert (in_list (text spf_tag) ["pass"; "fail"]) ;;
        ret (Some (String.eqb (text spf_tag) "pass"))
    | None => ret None
    end ;;
  dkim <- dot policy_evaluated "dkim" ;;
  dkim_pass_ <-
    match dkim with
    | Some dkim_tag =>
        assert (in_list (text dkim_tag) ["pass"; "fail"]) ;;
        ret (Some (String.eqb (text dkim_tag) "pass"))
    | None =>
        (* Manually sanitise the data; if DKIM wasn't included, it failed. *)
        ret (Some false)
    end ;;
  reason_tag <- dot policy_evaluated "reason" ;;
  let reason_ :=
    match reason_tag with
    | Some r => text <$> find "type" r
    | None => None
    end in
  (* Other Data *)
  header_from_tag <- dot (find "identifiers" record_xml) "header_from" ;;
  envelope_from_tag <- dot (find "identifiers" record_xml) "envelope_from" ;;
  count_text <- dot_text (find "count" record_xml) ;;
  count_ <- int_or_raise count_text ;;
  (* SPF Status *)
  match find "auth_results" record_xml with
  | None => raise AttributeError
  | Some auth_results =>
      spf_results_ <- for_spf_results (find_all "spf" auth_results) [] ;;
      (* DKIM *)
      dkim_signatures_ <- for_dkim_signatures (find_all "dkim" auth_results) [] ;;
      ret {| ip := ip_; host := host_; disposition := disposition_;
             reason := reason_; spf_pass := spf_pass_; dkim_pass := dkim_pass_;
             header_from := text <$> header_from_tag;
             envelope_from := text <$> envelope_from_tag;
             count := count_; spf_results := spf_results_;
             dkim_signatures := dkim_signatures_ |}
  end.

(** *** [DMARCReport.__init__] *)
Definition DMARCReport_init (filename_ : string) (metadata_xml policy_xml : option PageElement)
  : M DMARCReport :=
  report_id_tag <- dot metadata_xml "report_id" ;;
  id_ <- dot_text report_id_tag ;;
  org_name <- dot metadata_xml "org_name" ;;
  receiver_ <- dot_text org_name ;;
  date_range <- dot metadata_xml "date_range" ;;
  begin_tag <- dot date_range "begin" ;;
  begin_text <- dot_text begin_tag ;;
  begin_ <- int_or_raise begin_text ;;
  start_date_ <- utcfromtimestamp begin_ ;;
  end_tag <- dot date_range "end" ;;
  end_text <- dot_text end_tag ;;
  end_ <- int_or_raise end_text ;;
  end_date_ <- utcfromtimestamp end_ ;;
  ret {| report_id := id_; filename := filename_; receiver := receiver_;
         start_date := start_date_; end_date := end_date_; records := [] |}.

(** *** [_process_xml] *)

(** The loop over [records]. *)
Fixpoint for_records (rs : list PageElement) (report : DMARCReport) : M DMARCReport :=
  match rs with
  | [] => ret report
  | r :: rest =>
      record <- DMARCRecord_init r ;;
      for_records rest (add_record report record)
  end.

Definition _process_xml (xml_file : stream) (report_filename : string) : M DMARCReport :=
  (* Build the report object *)
  report_xml <- bs xml_file ;;
  report <- DMARCReport_init report_filename
              (find "report_metadata" report_xml) (find "policy_published" report_xml) ;;
  (* Add all of its DMARC records *)
  for_records (find_all "record" report_xml) report.

(** *** [_process_zipfile] *)

(** [archive.open(name)]: the archive keeps one entry for every name, the
    entry of the last member that bears it; a name that no member bears
    is a [KeyError]. *)
Fixpoint archive_open (archive : list (string * stream)) (name : string) : option stream :=
  match archive with
  | [] => None
  | (member_name, xml_file) :: rest =>
      match archive_open rest name with
      | Some later => Some later
      | None => if String.eqb member_name name then Some xml_file else None
      end
  end.

(** The loop over [archive.namelist()]: the first name that ends in
    [.xml] is opened, decoded and returned; with no such name the
    function falls off its end and returns [None]. *)
Fixpoint for_namelist (namelist : list string) (archive : list (string * stream))
    (archive_name : string) : M (option DMARCReport) :=
  match namelist with
  | [] => ret None
  | subfile_name :: rest =>
      if endswith subfile_name ".xml"
      then
        match archive_open archive subfile_name with
        | Some xml_file =>
            report <- _process_xml xml_file archive_name ;; ret (Some report)
        | None => raise KeyError
        end
      else for_namelist rest archive archive_name
  end.

Definition _process_zipfile (fname : string) : M (option DMARCReport) :=
  let archive_name := item_last (split "/" fname) in
  fun w =>
    match files w !! fname with
    | Some (regular (zip_archive archive)) =>
        for_namelist (fst <$> archive) archive archive_name w
    | Some (regular _) => (Raise BadZipfile, w)
    | _ => (Raise IOError, w)
    end.

(** *** [_process_gzfile] *)
Definition _process_gzfile (fname : string) : M (option DMARCReport) :=
  let archive_name := item_last (split "/" fname) in
  (* Assume standard gzip file, with single subfile named same minus the .gz *)
  let subfile_name := replace ".gz" "" archive_name in
  if endswith subfile_name ".xml"
  then
    fun w =>
      match files w !! fname with
      | Some (regular (gzip_file gzipfile)) =>
          (report <- _process_xml gzipfile archive_name ;; ret (Some report)) w
      | _ => (Raise IOError, w)
      end
  else ret None.

(** *** [parse_report] *)
Definition parse_report (root fname : string) : M bool :=
  report <-
    (if endswith fname ".zip" then _process_zipfile (root ++ "/" ++ fname)
     else if endswith fname ".gz" then _process_gzfile (root ++ "/" ++ fname)
     else ret None) ;;
  (* Save any parsed report *)
  match report with
  | Some r =>
      fun w =>
        (Ok true,
         World (_rdns_records w) (gethostbyaddr_calls w) (files w)
               (save_new_report (persistent_storage w) r))
  | None => ret false
  end.

(** *** [parse_reports_in_directory]

    The two counters [n] and [n_new] are what the closing [print] shows;
    they are the value of the model. *)
Fixpoint for_files (root : string) (fnames : list string) (n n_new : nat) : M (nat * nat) :=
  match fnames with
  | [] => ret (n, n_new)
  | fname :: rest =>
      let n := Datatypes.S n in
      fun w =>
        (* Check if we already have this report saved *)
        if report_already_exists (persistent_storage w) fname
        then for_files root rest n n_new w
        else
          (* If not, parse the file in correct manner *)
          (parsed <- parse_report root fname ;;
           if parsed : bool then for_files root rest n (Datatypes.S n_new)
           else for_files root rest n n_new) w
  end.

Fixpoint for_walk (walk : list (string * list string * list string)) (n n_new : nat)
  : M (nat * nat) :=
  match walk with
  | [] => ret (n, n_new)
  | (root, directories, fnames) :: rest =>
      counters <- for_files root fnames n n_new ;;
      for_walk rest (fst counters) (snd counters)
  end.

Definition parse_reports_in_directory (report_dir : string) : M (nat * nat) :=
  for_walk (os_walk report_dir) O O.

(** *** [save_rdns_records] and [load_rdns_records] *)

(** [os.path.join(a, b)] on POSIX paths. *)
Definition os_path_join (a b : string) : string :=
  if String.prefix "/" b then b
  else if String.eqb a "" || endswith a "/" then a ++ b
  else a ++ "/" ++ b.

(** [os.path.exists] and [os.path.isfile]. *)
Definition os_path_exists (w : world) (path : string) : bool :=
  bool_decide (is_Some (files w !! path)).

Definition os_path_isfile (w : world) (path : string) : bool :=
  match files w !! path with
  | Some (regular _) => true
  | _ => false
  end.

Definition save_rdns_records (rdns_records : gmap string (option string))
    (rdns_filename rdns_directory : string) : M unit :=
  let filepath := os_path_join rdns_directory rdns_filename in
  fun w =>
    ((if os_path_exists w rdns_directory then ret tt else os_makedirs rdns_directory) ;;
     write_file filepath (pickle_dump rdns_records)) w.

(** [pickle.load(f)] on the file object of [open(filepath)].  The file is
    opened without a mode, that is in text mode, so what [pickle] reads
    from it is text: when the bytes of the file do not decode, the read
    raises [UnicodeDecodeError]; when they do, [pickle] is handed a [str]
    where it needs [bytes] and raises [TypeError].  In
    [load_rdns_records] the inner [match] is the [open]: what is not a
    regular file cannot be opened for reading. *)
Definition pickle_load_text (data : file_data) : M (gmap string (option string)) :=
  if decodes_as_text data then raise TypeError else raise UnicodeDecodeError.

Definition load_rdns_records (rdns_filename rdns_directory : string)
  : M (gmap string (option string)) :=
  let filepath := os_path_join rdns_directory rdns_filename in
  fun w =>
    if os_path_isfile w filepath
    then
      match files w !! filepath with
      | Some (regular data) => pickle_load_text data w
      | _ => (Raise IOError, w)
      end
    else (Ok ∅, w).

End dmarc_parser.

(** *** The script

    What the module does when it is run: the cache is loaded into the
    global, the reports under [./reports] are parsed into the store (the
    [DMARCStorage()] of the script is the store of the world), and the
    cache is saved. *)
Definition main {S : Type} `{!Storage S} `{!Interpreter}
    (gethostbyaddr : list string -> string -> lookup)
    (os_walk : string -> list (string * list string * list string))
    (pickle_dump : gmap string (option string) -> string)
    (os_makedirs : string -> M S unit)
    (write_file : string -> string -> M S unit) : M S unit :=
  loaded <- load_rdns_records "rdns.pickle" "./results" ;;
  (fun w => (Ok tt, World loaded (gethostbyaddr_calls w) (files w) (persistent_storage w))) ;;
  parse_reports_in_directory gethostbyaddr os_walk "./reports" ;;
  (fun w => save_rdns_records pickle_dump os_makedirs write_file
              (_rdns_records w) "rdns.pickle" "./results" w).

(** ** Values used in the examples *)

(** Modelled from the spec: a report store in the spec's words, one that
    keeps the saved reports and answers whether a report with a given
    source filename already exists.  It stands in for [DMARCStorage],
    which is not part of the sources. *)
#[export] Instance list_storage : Storage (list DMARCReport) := {|
  report_already_exists st fname :=
    existsb (fun r => String.eqb (filename r) fname) st;
  save_new_report st r := (st ++ [r])%list
|}.

(** The interpreter of the examples: numerals are read by [decimal_int],
    a time stamp is refused with a [ValueError] when its year is not
    within 1 to 9999, and of the files only byte strings without a byte
    above 127 decode as text. *)
Definition year_out_of_range (t : Z) : option exn :=
  if (-62135596800 <=? t) && (t <=? 253402300799) then None else Some ValueError.

Definition is_ascii (data : file_data) : bool :=
  match data with
  | bytes b => forallb (fun c => Nat.ltb (nat_of_ascii c) 128) (list_ascii_of_string b)
  | _ => false
  end.

#[export] Instance example_interpreter : Interpreter | 100 := {|
  int := decimal_int;
  utcfromtimestamp_refuses := year_out_of_range;
  decodes_as_text := is_ascii
|}.

(** The file system of the examples: no directory has a directory inside
    it that is not listed, [os.makedirs] is given a path whose parent
    exists, and no write fails half-way. *)
Definition makedirs_one_level {S : Type} (path : string) : M S unit :=
  fun w =>
    match files w !! path with
    | Some _ => (Raise OSError, w)
    | None =>
        if String.eqb path "" then (Raise OSError, w)
        else (Ok tt, World (_rdns_records w) (gethostbyaddr_calls w)
                           (<[path := directory]> (files w)) (persistent_storage w))
    end.

Definition write_at_once {S : Type} (filepath : string) (data : string) : M S unit :=
  fun w =>
    match files w !! filepath with
    | Some directory => (Raise IOError, w)
    | _ =>
        if String.eqb filepath "" || endswith filepath "/" then (Raise IOError, w)
        else (Ok tt, World (_rdns_records w) (gethostbyaddr_calls w)
                           (<[filepath := regular (bytes data)]> (files w))
                           (persistent_storage w))
    end.

(** A network on which no address has a PTR record. *)
Definition no_ptr : list string -> string -> lookup :=
  fun _ _ => fails herror.

(** A network on which every query runs into the socket timeout. *)
Definition unreachable : list string -> string -> lookup :=
  fun _ _ => fails timeout.

(** A network that knows one host. *)
Definition one_host : list string -> string -> lookup :=
  fun _ ip_address =>
    if String.eqb ip_address "192.0.2.1" then resolved "mail.example.org"
    else fails herror.

(** A fresh process: empty cache, no query made, the given files, an
    empty store. *)
Definition fresh (fs : gmap string node) : world (list DMARCReport) :=
  World ∅ [] fs [].

(** [<name>txt</name>] *)
Definition leaf (name txt : string) : PageElement :=
  Tag name [NavigableString txt].

(** A [record] element from 192.0.2.1 with the given children of
    [policy_evaluated], the given [count] and the given children of
    [auth_results]. *)
Definition record_element (policy : list PageElement) (cnt : string)
    (auth : list PageElement) : PageElement :=
  Tag "record"
    [Tag "row"
       [leaf "source_ip" "192.0.2.1"; leaf "count" cnt;
        Tag "policy_evaluated" (leaf "disposition" "none" :: policy)];
     Tag "identifiers" [leaf "header_from" "example.com"];
     Tag "auth_results" auth].

(** A [feedback] document with the given records. *)
Definition feedback (rs : list PageElement) : PageElement :=
  Tag "[document]"
    [Tag "feedback"
       (Tag "report_metadata"
          [leaf "org_name" "receiver.example"; leaf "report_id" "r-1";
           Tag "date_range" [leaf "begin" "1500000000"; leaf "end" "1500086400"]]
        :: Tag "policy_published" [leaf "domain" "example.com"]
        :: rs)].

Definition good_record : PageElement :=
  record_element [leaf "dkim" "pass"; leaf "spf" "pass"] "5"
    [Tag "dkim" [leaf "domain" "example.com"; leaf "result" "pass"];
     Tag "spf" [leaf "domain" "example.com"; leaf "result" "pass"]].

(** ** Notions the statements use *)

(** The entry one [dkim] element of [auth_results] stands for, when it has
    the two children the loop reads unconditionally. *)
Definition dkim_entry_of (dkim_sig : PageElement) : option dkim_entry :=
  match find "result" dkim_sig, find "domain" dkim_sig with
  | Some r, Some d =>
      Some {| result := text r; domain := text d;
              selector := text <$> find "selector" dkim_sig;
              human_result := text <$> find "human_result" dkim_sig |}
  | _, _ => None
  end.

(** [policy_evaluated] as the constructor reaches it: [record_xml.row.policy_evaluated]. *)
Definition policy_evaluated_of (record_xml : PageElement) : option PageElement :=
  match find "row" record_xml with
  | Some row => find "policy_evaluated" row
  | None => None
  end.

(** A computation that neither touches the store nor the files. *)
Definition keeps_store {S A : Type} (m : M S A) : Prop :=
  forall w o w', m w = (o, w') ->
    persistent_storage w' = persistent_storage w /\ files w' = files w.

(** The rule the [dkim] loop applies, as a proposition: an entry is left
    out when its result is [none] or [neutral], and also when its domain is
    the sentinel. *)
Definition dkim_excluded (e : dkim_entry) : Prop :=
  (result e = "none" \/ result e = "neutral") \/ domain e = "not.evaluated".

(** The rule in the words of the specification: an entry is left out when
    its result is [none] or [neutral] and, at the same time, its domain is
    the sentinel. *)
Definition dkim_excluded_as_specified (e : dkim_entry) : Prop :=
  (result e = "none" \/ result e = "neutral") /\ domain e = "not.evaluated".

#[export] Instance dkim_excluded_dec e : Decision (dkim_excluded e).
Proof. unfold dkim_excluded. apply _. Defined.

#[export] Instance dkim_excluded_as_specified_dec e :
  Decision (dkim_excluded_as_specified e).
Proof. unfold dkim_excluded_as_specified. apply _. Defined.

(** A policy result that is present and spells neither [pass] nor [fail]. *)
Definition odd_policy_result (o : option PageElement) : Prop :=
  exists tag, o = Some tag /\ text tag <> "pass" /\ text tag <> "fail".

(** A record whose [auth_results] carry four signatures: one that passed,
    one without a result for a real domain, one that passed for the
    sentinel domain, and one that is neutral for the sentinel domain. *)
Definition mixed_dkim_record : PageElement :=
  record_element [leaf "dkim" "pass"; leaf "spf" "pass"] "5"
    [Tag "dkim" [leaf "domain" "example.com"; leaf "result" "pass"];
     Tag "dkim" [leaf "domain" "example.net"; leaf "result" "none"];
     Tag "dkim" [leaf "domain" "not.evaluated"; leaf "result" "pass"];
     Tag "dkim" [leaf "domain" "not.evaluated"; leaf "result" "neutral"]].

(** A record with one signature, without a result, for a real domain. *)
Definition none_for_real_domain : PageElement :=
  record_element [leaf "dkim" "fail"; leaf "spf" "pass"] "1"
    [Tag "dkim" [leaf "domain" "example.net"; leaf "result" "none"]].

(** Records whose [policy_evaluated] lacks [dkim], lacks [spf], and has an
    [spf] that is neither [pass] nor [fail]. *)
Definition record_without_dkim : PageElement :=
  record_element [leaf "spf" "pass"] "2" [].

Definition record_without_spf : PageElement :=
  record_element [leaf "dkim" "pass"] "2" [].

Definition record_with_odd_spf : PageElement :=
  record_element [leaf "dkim" "pass"; leaf "spf" "softfail"] "2" [].


(** [True] when [fname] has no [/] in it, as the file names [os.walk]
    yields. *)
Definition no_slash (fname : string) : Prop :=
  ~ In "/"%char (list_ascii_of_string fname).

(** A reports directory with one zip archive that holds one report. *)
Definition one_zip : gmap string node :=
  {[ "./reports/a/report.zip" :=
       regular (zip_archive [("readme.txt", readable (Tag "[document]" []));
                             ("report.xml", readable (feedback [good_record]))]) ]}.

(** A reports directory with two archives: the first is a zip file whose
    document has no [report_metadata], the second is well-formed. *)
Definition malformed_then_good : gmap string node :=
  {[ "./reports/bad.zip" :=
       regular (zip_archive [("report.xml", readable (Tag "[document]" [Tag "feedback" []]))]);
     "./reports/good.zip" :=
       regular (zip_archive [("report.xml", readable (feedback [good_record]))]) ]}.

(** The same with a first file that is no zip file at all. *)
Definition corrupt_then_good : gmap string node :=
  {[ "./reports/bad.zip" := regular (bytes "not a zip file");
     "./reports/good.zip" :=
       regular (zip_archive [("report.xml", readable (feedback [good_record]))]) ]}.

Definition walk_bad_good : string -> list (string * list string * list string) :=
  fun _ => [("./reports", [], ["bad.zip"; "good.zip"])].

(** The archive name with its [.gz] suffix stripped, in the words of the
    specification: only the three characters at the end go. *)
Definition without_gz_suffix (archive_name : string) : string :=
  if endswith archive_name ".gz"
  then String.substring 0 (String.length archive_name - 3) archive_name
  else archive_name.

(** A line-based serialisation of a cache, used where an example needs
    the bytes of a [pickle.dump]: one line for the address, one for the
    name ([S] and the name, or [N] for [None]). *)
Definition newline : ascii := ascii_of_nat 10.

Definition dump_lines (rdns_records : gmap string (option string)) : string :=
  foldr (fun kv out =>
           fst kv ++ String newline
             (match snd kv with Some h => String "S" h | None => "N" end
              ++ String newline out))
        EmptyString (map_to_list rdns_records).

(** A cache with a resolved and an unresolved address. *)
Definition two_addresses : gmap string (option string) :=
  {[ "192.0.2.1" := Some "mail.example.org"; "198.51.100.7" := None ]}.

(** The tree of [one_zip] as [os.walk] lists it. *)
Definition walk_one_zip : string -> list (string * list string * list string) :=
  fun _ => [("./reports", ["a"], []); ("./reports/a", [], ["report.zip"])].

(** Two gzip files with the same content and different names. *)
Definition two_gz : gmap string node :=
  {[ "./reports/mail.xml.gz" := regular (gzip_file (readable (feedback [good_record])));
     "./reports/mail.txt.gz" := regular (gzip_file (readable (feedback [good_record]))) ]}.

(** The entry one [spf] element of [auth_results] stands for, when it has
    the two children the loop reads. *)
Definition spf_entry_of (spf_result_tag : PageElement) : option spf_entry :=
  match find "result" spf_result_tag, find "domain" spf_result_tag with
  | Some r, Some d => Some {| spf_domain := text d; spf_result := text r |}
  | _, _ => None
  end.

(** The number of files in the triples of a walk. *)
Definition n_files (walk : list (string * list string * list string)) : nat :=
  foldr (fun triple total => (length (snd triple) + total)%nat) O walk.

(** A property of every file of a walk, given its directory and its name. *)
Definition each_file (P : string -> string -> Prop)
    (walk : list (string * list string * list string)) : Prop :=
  Forall (fun triple => Forall (P (fst (fst triple))) (snd triple)) walk.

(** The files are the same and the store knows every name it knew. *)
Definition store_grows {S : Type} `{!Storage S} (w w' : world S) : Prop :=
  files w' = files w /\
  forall fname,
    report_already_exists (persistent_storage w) fname = true ->
    report_already_exists (persistent_storage w') fname = true.

(** A file the driver has nothing left to do with: the store knows its
    name, or parsing it yields no report, in every world with these files. *)
Definition settled {S : Type} `{!Storage S} `{!Interpreter} (gethostbyaddr : list string -> string -> lookup)
    (w : world S) (root fname : string) : Prop :=
  report_already_exists (persistent_storage w) fname = true \/
  forall w2 : world S, files w2 = files w ->
    parse_report gethostbyaddr root fname w2 = (Ok false, w2).

(** The decode of the file [fname] of the directory [root] raises [e] and
    leaves the world [w']: the name ends in [.zip] and [_process_zipfile]
    raises on the path of the file, or the name ends in [.gz] and not in
    [.zip] and [_process_gzfile] raises on it. *)
Definition decode_raises {S : Type} `{!Interpreter}
    (gethostbyaddr : list string -> string -> lookup)
    (root fname : string) (w : world S) (e : exn) (w' : world S) : Prop :=
  (endswith fname ".zip" = true /\
   _process_zipfile gethostbyaddr (root ++ "/" ++ fname) w = (Raise e, w')) \/
  (endswith fname ".zip" = false /\ endswith fname ".gz" = true /\
   _process_gzfile gethostbyaddr (root ++ "/" ++ fname) w = (Raise e, w')).

(** The records the constructor builds from the elements of a list, one
    after the other, each in the world the one before it left. *)
Fixpoint construct_all {S : Type} `{!Interpreter}
    (gethostbyaddr : list string -> string -> lookup)
    (rs : list PageElement) : M S (list DMARCRecord) :=
  match rs with
  | [] => ret []
  | r :: rest =>
      record <- DMARCRecord_init gethostbyaddr r ;;
      later <- construct_all gethostbyaddr rest ;;
      ret (record :: later)
  end.

(** A record whose [policy_evaluated] has an [spf] that is neither [pass]
    nor [fail] and has no [disposition]. *)
Definition record_with_odd_spf_without_disposition : PageElement :=
  Tag "record"
    [Tag "row"
       [leaf "source_ip" "192.0.2.1"; leaf "count" "2";
        Tag "policy_evaluated" [leaf "dkim" "pass"; leaf "spf" "softfail"]];
     Tag "identifiers" [leaf "header_from" "example.com"];
     Tag "auth_results" []].

(** A zip archive in which two members bear the same name: the first
    holds a document without metadata, the second a report. *)
Definition two_members_of_one_name : list (string * stream) :=
  [("report.xml", readable (Tag "[document]" [Tag "feedback" []]));
   ("notes.txt", broken EOFError);
   ("report.xml", readable (feedback [good_record]))].

Definition zip_with_two_members_of_one_name : gmap string node :=
  {[ "./reports/twice.zip" := regular (zip_archive two_members_of_one_name) ]}.

(** Two directories that each hold a file [report.zip], with different
    reports in them. *)
Definition same_name_twice : gmap string node :=
  {[ "./reports/a/report.zip" :=
       regular (zip_archive [("report.xml", readable (feedback [good_record]))]);
     "./reports/b/report.zip" :=
       regular (zip_archive [("report.xml", readable (feedback [record_without_dkim]))]) ]}.

(** A store that already holds a report read from [report.zip]. *)
Definition store_with_report : list DMARCReport :=
  [{| report_id := "r-1"; filename := "report.zip"; receiver := "receiver.example";
      start_date := 1500000000; end_date := 1500086400; records := [] |}].

(** Between two worlds, the cache has kept its entries and every query
    made was for an address that was not in the cache. *)
Definition queries_only_misses {S : Type} (w w' : world S) : Prop :=
  _rdns_records w ⊆ _rdns_records w' /\
  exists new,
    gethostbyaddr_calls w' = (gethostbyaddr_calls w ++ new)%list /\
    Forall (fun ip_address => _rdns_records w !! ip_address = None) new.

(** A computation that moves the world along [R], whatever its outcome. *)
Definition respects {S A : Type} (R : world S -> world S -> Prop) (m : M S A) : Prop :=
  forall w o w', m w = (o, w') -> R w w'.

(** What decoding may do to the resolver: the files stay; the cache keeps
    every entry it had, and an entry it gains is a resolved name; the
    queries made are added at the end of the record of queries. *)
Definition cache_grows {S : Type} (w w' : world S) : Prop :=
  files w' = files w /\
  _rdns_records w ⊆ _rdns_records w' /\
  (forall ip_address h,
     _rdns_records w' !! ip_address = Some h ->
     _rdns_records w !! ip_address = Some h \/ exists hostname, h = Some hostname) /\
  gethostbyaddr_calls w `prefix_of` gethostbyaddr_calls w'.

(** * Properties *)

(** ** The monad *)

Section monad_facts.

Context {S : Type} {py : Interpreter}.

Lemma bind_Ok_inv {A B : Type} (m : M S A) (k : A -> M S B) w b w' :
  bind m k w = (Ok b, w') ->
  exists a w1, m w = (Ok a, w1) /\ k a w1 = (Ok b, w').
Proof.
  unfold bind. destruct (m w) as [[a|e] w1]; intros H; [eauto | discriminate].
Qed.

Lemma bind_Raise_inv {A B : Type} (m : M S A) (k : A -> M S B) w e w' :
  bind m k w = (Raise e, w') ->
  m w = (Raise e, w') \/ exists a w1, m w = (Ok a, w1) /\ k a w1 = (Raise e, w').
Proof.
  unfold bind. destruct (m w) as [[a|e0] w1]; intros H; [right; eauto | left; inversion H; reflexivity].
Qed.

Lemma bind_Ok_eq {A B : Type} (m : M S A) (k : A -> M S B) w a w1 :
  m w = (Ok a, w1) -> bind m k w = k a w1.
Proof. unfold bind. intros ->. reflexivity. Qed.

Lemma bind_Raise_eq {A B : Type} (m : M S A) (k : A -> M S B) w e w1 :
  m w = (Raise e, w1) -> bind m k w = (Raise e, w1).
Proof. unfold bind. intros ->. reflexivity. Qed.

Lemma dot_Ok_inv (o : option PageElement) name (w : world S) r w' :
  dot o name w = (Ok r, w') -> w' = w /\ exists tag, o = Some tag /\ r = find name tag.
Proof.
  destruct o as [tag|]; cbn; intros H; inversion H; subst; eauto.
Qed.

Lemma dot_text_Ok_inv (o : option PageElement) (w : world S) s w' :
  dot_text o w = (Ok s, w') -> w' = w /\ exists e, o = Some e /\ s = text e.
Proof.
  destruct o as [e|]; cbn; intros H; inversion H; subst; eauto.
Qed.

Lemma assert_Ok_inv (b : bool) (w : world S) u w' :
  assert b w = (Ok u, w') -> w' = w /\ b = true.
Proof.
  destruct b; cbn; intros H; inversion H; subst; eauto.
Qed.

Lemma int_or_raise_Ok_inv (s : string) (w : world S) z w' :
  int_or_raise s w = (Ok z, w') -> w' = w /\ int s = Some z.
Proof.
  unfold int_or_raise. destruct (int s); cbn; intros H; inversion H; subst; eauto.
Qed.

Lemma dot_Raise_inv (o : option PageElement) name (w : world S) e w' :
  dot o name w = (Raise e, w') -> e = AttributeError.
Proof. destruct o; cbn; intros H; inversion H; reflexivity. Qed.

Lemma dot_text_Raise_inv (o : option PageElement) (w : world S) e w' :
  dot_text o w = (Raise e, w') -> e = AttributeError.
Proof. destruct o; cbn; intros H; inversion H; reflexivity. Qed.

Lemma assert_Raise_inv (b : bool) (w : world S) e w' :
  assert b w = (Raise e, w') -> e = AssertionError /\ b = false /\ w' = w.
Proof. destruct b; cbn; intros H; inversion H; auto. Qed.

Lemma int_or_raise_Raise_inv (s : string) (w : world S) e w' :
  int_or_raise s w = (Raise e, w') -> e = ValueError.
Proof.
  unfold int_or_raise. destruct (int s); cbn; intros H; inversion H; reflexivity.
Qed.

Lemma utcfromtimestamp_Ok_inv (t : Z) (w : world S) d w' :
  utcfromtimestamp t w = (Ok d, w') ->
  w' = w /\ d = t /\ utcfromtimestamp_refuses t = None.
Proof.
  unfold utcfromtimestamp.
  destruct (utcfromtimestamp_refuses t); cbn; intros H; inversion H; subst; eauto.
Qed.

Lemma bs_Ok_inv (xml_file : stream) (w : world S) soup w' :
  bs xml_file w = (Ok soup, w') -> w' = w /\ xml_file = readable soup.
Proof. destruct xml_file; cbn; intros H; inversion H; subst; eauto. Qed.

Lemma bind_ret_l {A B : Type} (a : A) (k : A -> M S B) (w : world S) :
  bind (ret a) k w = k a w.
Proof. reflexivity. Qed.

End monad_facts.

(** Takes a successful run apart, bind by bind. *)
Ltac inv_Ok :=
  repeat match goal with
  | H : bind _ _ _ = (Ok _, _) |- _ =>
      let a := fresh "a" in let w1 := fresh "w" in let H1 := fresh "H" in
      apply bind_Ok_inv in H as (a & w1 & H1 & H)
  | H : dot _ _ _ = (Ok _, _) |- _ =>
      let t := fresh "tag" in let E := fresh "E" in
      apply dot_Ok_inv in H as (-> & t & E & ->)
  | H : dot_text _ _ = (Ok _, _) |- _ =>
      let t := fresh "tag" in let E := fresh "E" in
      apply dot_text_Ok_inv in H as (-> & t & E & ->)
  | H : assert _ _ = (Ok _, _) |- _ =>
      let E := fresh "E" in apply assert_Ok_inv in H as (-> & E)
  | H : int_or_raise _ _ = (Ok _, _) |- _ =>
      let E := fresh "E" in apply int_or_raise_Ok_inv in H as (-> & E)
  | H : utcfromtimestamp _ _ = (Ok _, _) |- _ =>
      let E := fresh "E" in apply utcfromtimestamp_Ok_inv in H as (-> & -> & E)
  | H : bs _ _ = (Ok _, _) |- _ =>
      apply bs_Ok_inv in H as (-> & ->)
  | H : ret _ _ = (Ok _, _) |- _ => unfold ret in H; inversion H; subst; clear H
  | H : raise _ _ = (Ok _, _) |- _ => discriminate H
  end.

(** Takes a failed run apart: at every bind, either the first part raised
    or it returned and the rest raised.  Failures of the primitive steps
    are resolved on the spot. *)
Ltac inv_Raise :=
  repeat match goal with
  | H : bind _ _ _ = (Raise _, _) |- _ =>
      let a := fresh "a" in let w1 := fresh "w" in let H1 := fresh "H" in
      apply bind_Raise_inv in H as [H | (a & w1 & H1 & H)]
  | H : dot _ _ _ = (Raise _, _) |- _ => apply dot_Raise_inv in H; try discriminate H
  | H : dot_text _ _ = (Raise _, _) |- _ => apply dot_text_Raise_inv in H; try discriminate H
  | H : int_or_raise _ _ = (Raise _, _) |- _ =>
      apply int_or_raise_Raise_inv in H; try discriminate H
  | H : ret _ _ = (Raise _, _) |- _ => discriminate H
  | H : raise _ _ = (Raise _, _) |- _ =>
      unfold raise in H; inversion H; subst; clear H
  | H : assert _ _ = (Raise _, _) |- _ =>
      let E := fresh "E" in apply assert_Raise_inv in H as (_ & E & ->)
  | _ => progress inv_Ok
  end.

(** Runs a leading [ret]. *)
Ltac run_ret :=
  repeat match goal with
  | |- bind (ret ?a) ?k ?w = _ => rewrite (bind_ret_l a k w); cbv beta
  | |- bind (bind (ret ?a) ?f) ?k ?w = _ =>
      change (bind (bind (ret a) f) k w) with (bind (f a) k w); cbv beta
  end.

Section record_facts.

Context {S : Type} {py : Interpreter}.
Variable gethostbyaddr : list string -> string -> lookup.

Lemma for_spf_results_Ok l : forall acc (w : world S) out w',
  for_spf_results l acc w = (Ok out, w') -> w' = w.
Proof.
  induction l as [|x l IH]; intros acc w out w' H; cbn in H.
  - inv_Ok. reflexivity.
  - inv_Ok. eauto.
Qed.

Lemma dkim_entry_of_Some dkim_sig r d :
  find "result" dkim_sig = Some r -> find "domain" dkim_sig = Some d ->
  dkim_entry_of dkim_sig =
    Some {| result := text r; domain := text d;
            selector := text <$> find "selector" dkim_sig;
            human_result := text <$> find "human_result" dkim_sig |}.
Proof. unfold dkim_entry_of. intros -> ->. reflexivity. Qed.

Lemma mapM_cons_Some {A B : Type} (f : A -> option B) x l y k :
  f x = Some y -> mapM f l = Some k -> mapM f (x :: l) = Some (y :: k).
Proof. intros Hx Hl. cbn. rewrite Hx. cbn. rewrite Hl. reflexivity. Qed.

Lemma for_dkim_signatures_Ok l : forall acc (w : world S) out w',
  for_dkim_signatures l acc w = (Ok out, w') ->
  w' = w /\
  exists entries, mapM dkim_entry_of l = Some entries /\
    out = (acc ++ List.filter (fun e => dkim_kept (result e) (domain e)) entries)%list.
Proof.
  induction l as [|x l IH]; intros acc w out w' H; cbn in H.
  - inv_Ok. split; [reflexivity|]. exists []. cbn. by rewrite app_nil_r.
  - inv_Ok.
    match goal with
    | Er : find "result" x = Some ?r, Ed : find "domain" x = Some ?d |- _ =>
        pose proof (dkim_entry_of_Some x r d Er Ed) as Hx
    end.
    match type of H with
    | (if ?b then _ else _) _ = _ => destruct b eqn:K
    end;
      apply IH in H as (-> & entries & Hm & ->); (split; [reflexivity|]);
      eexists; (split; [exact (mapM_cons_Some _ _ _ _ _ Hx Hm)|]);
      cbn [List.filter result domain]; rewrite K.
    + by rewrite <- app_assoc.
    + reflexivity.
Qed.

(** Everything a finished [DMARCRecord.__init__] has read and set. *)
Lemma DMARCRecord_init_Ok record_xml (w : world S) rec w' :
  DMARCRecord_init gethostbyaddr record_xml w = (Ok rec, w') ->
  exists source_ip policy disposition_tag identifiers count_tag auth_results,
    find "source_ip" record_xml = Some source_ip /\
    ip rec = text source_ip /\
    _lookup_ip gethostbyaddr (text source_ip) w = (Ok (host rec), w') /\
    policy_evaluated_of record_xml = Some policy /\
    find "disposition" policy = Some disposition_tag /\
    disposition rec = text disposition_tag /\
    match find "spf" policy with
    | Some t => in_list (text t) ["pass"; "fail"] = true /\
                spf_pass rec = Some (String.eqb (text t) "pass")
    | None => spf_pass rec = None
    end /\
    match find "dkim" policy with
    | Some t => in_list (text t) ["pass"; "fail"] = true /\
                dkim_pass rec = Some (String.eqb (text t) "pass")
    | None => dkim_pass rec = Some false
    end /\
    find "identifiers" record_xml = Some identifiers /\
    find "count" record_xml = Some count_tag /\
    int (text count_tag) = Some (count rec) /\
    find "auth_results" record_xml = Some auth_results /\
    exists entries,
      mapM dkim_entry_of (find_all "dkim" auth_results) = Some entries /\
      dkim_signatures rec =
        List.filter (fun e => dkim_kept (result e) (domain e)) entries.
Proof.
  unfold DMARCRecord_init. intros H. inv_Ok.
  destruct (find "auth_results" record_xml) as [auth|] eqn:Eauth; [|discriminate H].
  inv_Ok. simplify_eq.
  repeat match goal with
  | H : for_spf_results _ _ _ = (Ok _, _) |- _ => apply for_spf_results_Ok in H as ->
  | H : for_dkim_signatures _ _ _ = (Ok _, _) |- _ =>
      apply for_dkim_signatures_Ok in H as (-> & entries & Hm & ->)
  end.
  match goal with
  | Hs : match find "spf" ?p with _ => _ end _ = _,
    Hd : match find "dkim" ?p with _ => _ end _ = _ |- _ =>
      destruct (find "spf" p) as [spf_tag|] eqn:Espf;
      destruct (find "dkim" p) as [dkim_tag|] eqn:Edkim;
      inv_Ok
  end;
    match goal with
    | E1 : find "source_ip" _ = Some ?a, E2 : find "policy_evaluated" _ = Some ?b,
      E3 : find "disposition" _ = Some ?c, E4 : find "identifiers" _ = Some ?d,
      E5 : find "count" _ = Some ?e |- _ => exists a, b, c, d, e, auth
    end;
    cbn [ip host disposition spf_pass dkim_pass count dkim_signatures];
    unfold policy_evaluated_of;
    repeat match goal with E : find _ _ = Some _ |- _ => rewrite E end;
    rewrite ?Espf, ?Edkim;
    split_and!; try eassumption; try reflexivity;
    (exists entries; split; [exact Hm | reflexivity]).
Qed.

Lemma dkim_kept_spec r d :
  dkim_kept r d = true <->
  ~ ((r = "none" \/ r = "neutral") \/ d = "not.evaluated").
Proof.
  unfold dkim_kept, in_list. cbn.
  destruct (String.eqb_spec r "none"), (String.eqb_spec r "neutral"),
    (String.eqb_spec d "not.evaluated"); cbn; intuition congruence.
Qed.

Lemma filter_dkim_kept (entries : list dkim_entry) :
  List.filter (fun e => dkim_kept (result e) (domain e)) entries =
  filter (fun e => ~ dkim_excluded e) entries.
Proof.
  induction entries as [|e entries IH]; [reflexivity|].
  cbn [List.filter]. rewrite filter_cons, IH.
  destruct (dkim_kept (result e) (domain e)) eqn:K.
  - apply dkim_kept_spec in K. by rewrite decide_True.
  - rewrite decide_False; [reflexivity|].
    intros Hn. apply dkim_kept_spec in Hn. congruence.
Qed.

(** C1, as the code has it: the [dkim_signatures] of a constructed record
    are the entries of the [dkim] elements of [auth_results], in document
    order, without those whose result is [none] or [neutral] and without
    those whose domain is [not.evaluated]; either condition alone leaves
    an entry out, and every other entry is kept. *)
Theorem dkim_signatures_filtered record_xml (w : world S) rec w' :
  DMARCRecord_init gethostbyaddr record_xml w = (Ok rec, w') ->
  exists auth_results entries,
    find "auth_results" record_xml = Some auth_results /\
    mapM dkim_entry_of (find_all "dkim" auth_results) = Some entries /\
    dkim_signatures rec = filter (fun e => ~ dkim_excluded e) entries.
Proof.
  intros H.
  apply DMARCRecord_init_Ok in H
    as (_ & _ & _ & _ & _ & auth & _ & _ & _ & _ & _ & _ & _ & _ & _ & _ & _ & Hauth
        & entries & Hm & Hsig).
  exists auth, entries. rewrite Hsig, filter_dkim_kept. auto.
Qed.

(** C5: a record whose [policy_evaluated] has no [dkim] gets
    [dkim_pass = False], and the [dkim_pass] of every constructed record
    is a Boolean, never [None]. *)
Theorem dkim_pass_defined record_xml (w : world S) rec w' :
  DMARCRecord_init gethostbyaddr record_xml w = (Ok rec, w') ->
  (exists b, dkim_pass rec = Some b) /\
  forall policy_evaluated,
    policy_evaluated_of record_xml = Some policy_evaluated ->
    find "dkim" policy_evaluated = None ->
    dkim_pass rec = Some false.
Proof.
  intros H.
  apply DMARCRecord_init_Ok in H
    as (_ & policy & _ & _ & _ & _ & _ & _ & _ & Hp & _ & _ & _ & Hdkim & _).
  split.
  - destruct (find "dkim" policy); [destruct Hdkim|]; eauto.
  - intros p Hp' Hnone. rewrite Hp in Hp'. injection Hp' as <-.
    by rewrite Hnone in Hdkim.
Qed.

(** C6: a record whose [policy_evaluated] has no [spf] keeps
    [spf_pass = None]; it is not set to [False]. *)
Theorem spf_pass_undefined record_xml (w : world S) rec w' policy_evaluated :
  DMARCRecord_init gethostbyaddr record_xml w = (Ok rec, w') ->
  policy_evaluated_of record_xml = Some policy_evaluated ->
  find "spf" policy_evaluated = None ->
  spf_pass rec = None.
Proof.
  intros H Hp' Hnone.
  apply DMARCRecord_init_Ok in H
    as (_ & policy & _ & _ & _ & _ & _ & _ & _ & Hp & _ & _ & Hspf & _).
  rewrite Hp in Hp'. injection Hp' as <-. by rewrite Hnone in Hspf.
Qed.


Lemma in_list_pass_fail s :
  in_list s ["pass"; "fail"] = true <-> s = "pass" \/ s = "fail".
Proof.
  unfold in_list. cbn.
  destruct (String.eqb_spec s "pass"), (String.eqb_spec s "fail"); cbn;
    intuition congruence.
Qed.

Lemma for_spf_results_Raise l : forall acc (w : world S) e w',
  for_spf_results l acc w = (Raise e, w') -> e = AttributeError.
Proof.
  induction l as [|x l IH]; intros acc w e w' H; cbn in H.
  - discriminate H.
  - inv_Raise; eauto.
Qed.

Lemma for_dkim_signatures_Raise l : forall acc (w : world S) e w',
  for_dkim_signatures l acc w = (Raise e, w') -> e = AttributeError.
Proof.
  induction l as [|x l IH]; intros acc w e w' H; cbn in H.
  - discriminate H.
  - inv_Raise; try assumption.
    match type of H with
    | (if ?b then _ else _) _ = _ => destruct b
    end; eauto.
Qed.

(** A failed assertion in the constructor is a failed assertion on one of
    the two policy results, provided the address lookup did not raise. *)
Lemma DMARCRecord_init_AssertionError record_xml (w : world S) w' :
  DMARCRecord_init gethostbyaddr record_xml w = (Raise AssertionError, w') ->
  (forall source_ip, find "source_ip" record_xml = Some source_ip ->
     exists h w1, _lookup_ip gethostbyaddr (text source_ip) w = (Ok h, w1)) ->
  exists policy,
    policy_evaluated_of record_xml = Some policy /\
    (odd_policy_result (find "spf" policy) \/ odd_policy_result (find "dkim" policy)).
Proof.
  unfold DMARCRecord_init. intros H Hlookup.
  inv_Raise; simplify_eq.
  - match goal with E : find "source_ip" _ = Some _ |- _ =>
      destruct (Hlookup _ E) as (h & w1 & Hl) end.
    congruence.
  - match goal with
    | Er : find "row" _ = Some ?row, Ep : find "policy_evaluated" ?row = Some ?p |- _ =>
        exists p; split; [unfold policy_evaluated_of; rewrite Er; exact Ep|];
        destruct (find "spf" p) as [t|] eqn:Espf; inv_Raise
    end.
    left. exists t. split; [reflexivity|].
    split; intros Ht; rewrite Ht in *; discriminate.
  - match goal with
    | Er : find "row" _ = Some ?row, Ep : find "policy_evaluated" ?row = Some ?p |- _ =>
        exists p; split; [unfold policy_evaluated_of; rewrite Er; exact Ep|];
        destruct (find "dkim" p) as [t|] eqn:Edkim; inv_Raise
    end.
    right. exists t. split; [reflexivity|].
    split; intros Ht; rewrite Ht in *; discriminate.
  - destruct (find "auth_results" record_xml); inv_Raise.
    + match goal with H : for_spf_results _ _ _ = _ |- _ =>
        apply for_spf_results_Raise in H; discriminate H end.
    + match goal with H : for_dkim_signatures _ _ _ = _ |- _ =>
        apply for_dkim_signatures_Raise in H; discriminate H end.
Qed.

Lemma DMARCRecord_init_odd record_xml (w : world S) source_ip h w1 policy disposition_tag :
  find "source_ip" record_xml = Some source_ip ->
  _lookup_ip gethostbyaddr (text source_ip) w = (Ok h, w1) ->
  policy_evaluated_of record_xml = Some policy ->
  find "disposition" policy = Some disposition_tag ->
  odd_policy_result (find "spf" policy) \/ odd_policy_result (find "dkim" policy) ->
  DMARCRecord_init gethostbyaddr record_xml w = (Raise AssertionError, w1).
Proof.
  intros Hsrc Hl Hp Hd Hodd.
  unfold policy_evaluated_of in Hp.
  destruct (find "row" record_xml) as [row|] eqn:Er; [|discriminate Hp].
  assert (Hin : forall t, text t <> "pass" -> text t <> "fail" ->
                  in_list (text t) ["pass"; "fail"] = false).
  { intros t n1 n2. apply not_true_iff_false. rewrite in_list_pass_fail. tauto. }
  unfold DMARCRecord_init.
  rewrite Hsrc. cbn [dot_text]. run_ret.
  rewrite (bind_Ok_eq _ _ _ _ _ Hl), Er. cbn [dot]. run_ret.
  rewrite Hp. cbn [dot]. run_ret. rewrite Hd. cbn [dot_text]. run_ret.
  destruct Hodd as [(t & Es & n1 & n2) | (t & Ed & n1 & n2)].
  - rewrite Es, (Hin t n1 n2). reflexivity.
  - destruct (find "spf" policy) as [ts|];
      [destruct (in_list (text ts) ["pass"; "fail"]); [|reflexivity]|];
      cbn [assert]; run_ret; rewrite Ed, (Hin t n1 n2); reflexivity.
Qed.

(** C7, as the code has it: the two checks come after the source address
    has been read and looked up and after the disposition has been read.
    In a record element that has a [source_ip] whose lookup returns and a
    [row.policy_evaluated] with a [disposition], the constructor fails
    with an [AssertionError] exactly when [policy_evaluated.spf] or
    [policy_evaluated.dkim] is present with a text other than [pass] and
    [fail]; and when it returns, each flag whose element is present is
    [text == 'pass']. *)
Theorem policy_results_asserted record_xml (w : world S) source_ip h w1
    policy disposition_tag :
  find "source_ip" record_xml = Some source_ip ->
  _lookup_ip gethostbyaddr (text source_ip) w = (Ok h, w1) ->
  policy_evaluated_of record_xml = Some policy ->
  find "disposition" policy = Some disposition_tag ->
  (fst (DMARCRecord_init gethostbyaddr record_xml w) = Raise AssertionError <->
   odd_policy_result (find "spf" policy) \/ odd_policy_result (find "dkim" policy)) /\
  (forall rec w',
     DMARCRecord_init gethostbyaddr record_xml w = (Ok rec, w') ->
     (forall tag, find "spf" policy = Some tag ->
        spf_pass rec = Some (String.eqb (text tag) "pass")) /\
     (forall tag, find "dkim" policy = Some tag ->
        dkim_pass rec = Some (String.eqb (text tag) "pass"))).
Proof.
  intros Hsrc Hl Hp Hd. split; [split|].
  - intros H.
    destruct (DMARCRecord_init gethostbyaddr record_xml w) as [o w2] eqn:Hrun.
    cbn in H. subst o.
    apply DMARCRecord_init_AssertionError in Hrun as (p & Hp' & Hodd).
    + rewrite Hp in Hp'. by injection Hp' as <-.
    + intros s Hs. rewrite Hsrc in Hs. injection Hs as <-. eauto.
  - intros Hodd.
    by rewrite (DMARCRecord_init_odd _ _ _ _ _ _ _ Hsrc Hl Hp Hd Hodd).
  - intros rec w' Hrun.
    apply DMARCRecord_init_Ok in Hrun
      as (_ & p & _ & _ & _ & _ & _ & _ & _ & Hp' & _ & _ & Hspf & Hdkim & _).
    rewrite Hp in Hp'. injection Hp' as <-.
    split; intros tag Ht; rewrite Ht in *; tauto.
Qed.

End record_facts.

(** ** The resolver cache *)

Section lookup_facts.

Context {S : Type} {py : Interpreter}.
Variable gethostbyaddr : list string -> string -> lookup.

(** An address in the cache is answered from the cache: no query is
    made and nothing changes. *)
Lemma _lookup_ip_cached ip_address (w : world S) hostname :
  _rdns_records w !! ip_address = Some hostname ->
  _lookup_ip gethostbyaddr ip_address w = (Ok hostname, w).
Proof. unfold _lookup_ip. intros ->. reflexivity. Qed.

(** A name that was resolved is cached, so the next call for the address
    makes no query. *)
Lemma _lookup_ip_resolved ip_address (w : world S) hostname o w' :
  _rdns_records w !! ip_address = None ->
  gethostbyaddr (gethostbyaddr_calls w) ip_address = resolved hostname ->
  _lookup_ip gethostbyaddr ip_address w = (o, w') ->
  o = Ok (Some hostname) /\
  _rdns_records w' !! ip_address = Some (Some hostname) /\
  _lookup_ip gethostbyaddr ip_address w' = (Ok (Some hostname), w').
Proof.
  unfold _lookup_ip at 1. intros -> -> H. inversion H; subst; clear H.
  split; [reflexivity|].
  assert (Hc : <[ip_address:=Some hostname]> (_rdns_records w) !! ip_address
               = Some (Some hostname)) by apply lookup_insert_eq.
  split; [exact Hc|]. by apply _lookup_ip_cached.
Qed.

(** C2, as the code has it: when the reverse lookup of an address that is
    not in the cache fails, the resolver returns [None] for [herror] and
    lets every other error propagate; in both cases the cache is left as
    it was and the query is on record, and a second call for the same
    address queries the network again. *)
Theorem failed_lookup_not_cached ip_address (w : world S) e o w' :
  _rdns_records w !! ip_address = None ->
  gethostbyaddr (gethostbyaddr_calls w) ip_address = fails e ->
  _lookup_ip gethostbyaddr ip_address w = (o, w') ->
  o = match e with herror => Ok None | _ => Raise e end /\
  _rdns_records w' = _rdns_records w /\
  gethostbyaddr_calls w' = (gethostbyaddr_calls w ++ [ip_address])%list /\
  gethostbyaddr_calls (snd (_lookup_ip gethostbyaddr ip_address w')) =
    (gethostbyaddr_calls w ++ [ip_address; ip_address])%list.
Proof.
  intros Hc Hf H.
  assert (Hw : w' = World (_rdns_records w) (gethostbyaddr_calls w ++ [ip_address])
                          (files w) (persistent_storage w)
               /\ o = match e with herror => Ok None | _ => Raise e end).
  { unfold _lookup_ip in H. rewrite Hc, Hf in H.
    destruct e; inversion H; subst; auto. }
  destruct Hw as [-> ->]. cbn [_rdns_records gethostbyaddr_calls].
  split_and!; try reflexivity.
  unfold _lookup_ip. cbn [_rdns_records gethostbyaddr_calls files persistent_storage].
  rewrite Hc, <- app_assoc. cbn [app].
  destruct (gethostbyaddr (gethostbyaddr_calls w ++ [ip_address]) ip_address)
    as [hostname|[]]; reflexivity.
Qed.

End lookup_facts.

Lemma failed_lookup_not_cached_witness :
  exists o w',
    _lookup_ip no_ptr "198.51.100.7" (fresh ∅) = (o, w') /\
    o = Ok None /\
    _rdns_records w' = ∅ /\
    gethostbyaddr_calls w' = ["198.51.100.7"] /\
    gethostbyaddr_calls (snd (_lookup_ip no_ptr "198.51.100.7" w')) =
      ["198.51.100.7"; "198.51.100.7"].
Proof.
  do 2 eexists. split; [vm_compute; reflexivity|].
  refine (failed_lookup_not_cached no_ptr "198.51.100.7" (fresh ∅) herror _ _ _ _ _);
    vm_compute; reflexivity.
Defined.

(** C2 as stated fails: on a network without PTR records the first call
    for an address leaves no entry for it in the cache, and the second
    call queries the network once more. *)
Lemma failed_lookup_is_repeated :
  ~ (forall o1 w1 o2 w2,
       _lookup_ip no_ptr "198.51.100.7" (fresh ∅) = (o1, w1) ->
       _lookup_ip no_ptr "198.51.100.7" w1 = (o2, w2) ->
       _rdns_records w1 !! "198.51.100.7" = Some None /\
       gethostbyaddr_calls w2 = gethostbyaddr_calls w1).
Proof.
  intros H.
  edestruct H as [Hcached Hcalls]; [vm_compute; reflexivity..|].
  vm_compute in Hcalls. discriminate Hcalls.
Qed.

(** ** File names *)

Lemma split_nonempty sep s : split sep s <> [].
Proof.
  destruct s as [|c s]; cbn; [discriminate|].
  destruct (Ascii.eqb c sep); [discriminate|].
  destruct (split sep s); discriminate.
Qed.

Lemma split_app_sep sep a b :
  split sep (a ++ String sep b) = (split sep a ++ split sep b)%list.
Proof.
  induction a as [|c a IH].
  - change (split sep (String sep b) = ([EmptyString] ++ split sep b)%list).
    cbn. by rewrite Ascii.eqb_refl.
  - change (split sep (String c (a ++ String sep b))
            = (split sep (String c a) ++ split sep b)%list).
    cbn [split]. destruct (Ascii.eqb c sep); rewrite IH; [reflexivity|].
    pose proof (split_nonempty sep a) as Hne.
    destruct (split sep a); [contradiction|reflexivity].
Qed.

Lemma last_app_nonempty {A : Type} (l1 l2 : list A) d :
  l2 <> [] -> List.last (l1 ++ l2) d = List.last l2 d.
Proof.
  intros Hne. destruct (exists_last Hne) as (l & x & ->).
  by rewrite app_assoc, !last_last.
Qed.

(** The last component of [root/fname] is the last component of [fname]. *)
Lemma item_last_join root fname :
  item_last (split "/" (root ++ "/" ++ fname)) = item_last (split "/" fname).
Proof.
  unfold item_last. change (root ++ "/" ++ fname) with (root ++ String "/" fname).
  rewrite split_app_sep. apply last_app_nonempty, split_nonempty.
Qed.

Lemma split_no_sep sep s :
  ~ In sep (list_ascii_of_string s) -> split sep s = [s].
Proof.
  induction s as [|c s IH]; cbn; [reflexivity|]. intros Hn.
  destruct (Ascii.eqb_spec c sep) as [->|_]; [tauto|].
  rewrite IH; [reflexivity|tauto].
Qed.

Lemma endswith_cons c s suffix :
  endswith s suffix = true -> endswith (String c s) suffix = true.
Proof. intros H. cbn [endswith]. rewrite H. by destruct (String.eqb _ _). Qed.

Lemma prefix_gz_inside c a :
  String.prefix ".gz" (String c (a ++ ".xml.gz")) = true ->
  (2 <= String.length a)%nat.
Proof.
  destruct a as [|x [|y a]]; cbn [String.length]; try lia; intros Hp; exfalso.
  - change (String.prefix ".gz" (String c ".xml.gz") = true) in Hp.
    apply String.prefix_correct in Hp. cbn in Hp. inversion Hp.
  - change (String.prefix ".gz" (String c (String x ".xml.gz")) = true) in Hp.
    apply String.prefix_correct in Hp. cbn in Hp. inversion Hp.
Qed.

(** Where [replace] and the suffix agree: a name that ends in [.xml.gz]
    still ends in [.xml] once every [.gz] is taken out. *)
Lemma replace_gz_keeps_xml stem : forall skip,
  (skip <= String.length stem)%nat ->
  endswith (replace_from ".gz" "" skip (stem ++ ".xml.gz")) ".xml" = true.
Proof.
  induction stem as [|c stem IH]; intros skip Hskip.
  - cbn in Hskip. assert (skip = O) as -> by lia. reflexivity.
  - change (String c stem ++ ".xml.gz") with (String c (stem ++ ".xml.gz")).
    cbn [replace_from]. destruct skip as [|k].
    + destruct (String.prefix ".gz" (String c (stem ++ ".xml.gz"))) eqn:Hp.
      * apply prefix_gz_inside in Hp. apply IH. cbn. lia.
      * apply endswith_cons, IH. lia.
    + apply IH. cbn in Hskip. lia.
Qed.

(** ** What the decoder leaves alone *)

Section preserved.

Context {S : Type} {py : Interpreter}.
Variable gethostbyaddr : list string -> string -> lookup.

Lemma keeps_store_ret {A : Type} (a : A) : keeps_store (@ret S A a).
Proof. intros w o w' H. inversion H; auto. Qed.

Lemma keeps_store_raise {A : Type} e : keeps_store (@raise S A e).
Proof. intros w o w' H. inversion H; auto. Qed.

Lemma keeps_store_bind {A B : Type} (m : M S A) (k : A -> M S B) :
  keeps_store m -> (forall a, keeps_store (k a)) -> keeps_store (bind m k).
Proof.
  intros Hm Hk w o w' H. unfold bind in H.
  destruct (m w) as [[a|e] w1] eqn:E; destruct (Hm _ _ _ E) as [<- <-].
  - exact (Hk _ _ _ _ H).
  - inversion H; auto.
Qed.

Lemma keeps_store_dot o name : keeps_store (@dot S o name).
Proof. destruct o; [apply keeps_store_ret | apply keeps_store_raise]. Qed.

Lemma keeps_store_dot_text o : keeps_store (@dot_text S o).
Proof. destruct o; [apply keeps_store_ret | apply keeps_store_raise]. Qed.

Lemma keeps_store_assert b : keeps_store (@assert S b).
Proof. destruct b; [apply keeps_store_ret | apply keeps_store_raise]. Qed.

Lemma keeps_store_int_or_raise s : keeps_store (int_or_raise (S:=S) s).
Proof.
  unfold int_or_raise. destruct (int s); [apply keeps_store_ret | apply keeps_store_raise].
Qed.

Lemma keeps_store_utcfromtimestamp t : keeps_store (utcfromtimestamp (S:=S) t).
Proof.
  unfold utcfromtimestamp.
  destruct (utcfromtimestamp_refuses t); [apply keeps_store_raise | apply keeps_store_ret].
Qed.

Lemma keeps_store_bs xml_file : keeps_store (@bs S xml_file).
Proof. destruct xml_file; [apply keeps_store_ret | apply keeps_store_raise]. Qed.

Lemma keeps_store_lookup_ip ip_address :
  keeps_store (_lookup_ip (S:=S) gethostbyaddr ip_address).
Proof.
  intros w o w' H. unfold _lookup_ip in H.
  destruct (_rdns_records w !! ip_address); [inversion H; auto|].
  destruct (gethostbyaddr (gethostbyaddr_calls w) ip_address) as [h|[]];
    inversion H; auto.
Qed.

Lemma keeps_store_for_spf_results l : forall acc,
  keeps_store (for_spf_results (S:=S) l acc).
Proof.
  induction l as [|x l IH]; intros acc; cbn.
  - apply keeps_store_ret.
  - repeat (apply keeps_store_bind; [apply keeps_store_dot_text | intros ?]).
    apply IH.
Qed.

Lemma keeps_store_for_dkim_signatures l : forall acc,
  keeps_store (for_dkim_signatures (S:=S) l acc).
Proof.
  induction l as [|x l IH]; intros acc; cbn.
  - apply keeps_store_ret.
  - repeat (apply keeps_store_bind; [apply keeps_store_dot_text | intros ?]).
    destruct (dkim_kept _ _); apply IH.
Qed.

End preserved.

Create HintDb keeps.

#[export] Hint Resolve keeps_store_ret keeps_store_raise keeps_store_dot
  keeps_store_dot_text keeps_store_assert keeps_store_int_or_raise
  keeps_store_utcfromtimestamp keeps_store_bs keeps_store_lookup_ip
  keeps_store_for_spf_results keeps_store_for_dkim_signatures : keeps.

(** Splits a sequence of binds and closes the primitive steps. *)
Ltac keeps :=
  repeat first
    [ apply keeps_store_bind; [|intros ?]
    | solve [auto with keeps]
    | match goal with
      | |- keeps_store (match ?x with _ => _ end) => destruct x
      end ].

Section decoder_facts.

Context {S : Type} `{!Storage S} {py : Interpreter}.
Variable gethostbyaddr : list string -> string -> lookup.
Variable os_walk : string -> list (string * list string * list string).

Lemma keeps_store_DMARCRecord_init record_xml :
  keeps_store (DMARCRecord_init (S:=S) gethostbyaddr record_xml).
Proof. unfold DMARCRecord_init. keeps. Qed.

Lemma keeps_store_DMARCReport_init name metadata_xml policy_xml :
  keeps_store (DMARCReport_init (S:=S) name metadata_xml policy_xml).
Proof. unfold DMARCReport_init. keeps. Qed.

Lemma DMARCReport_init_filename name metadata_xml policy_xml (w : world S) report w' :
  DMARCReport_init name metadata_xml policy_xml w = (Ok report, w') ->
  filename report = name.
Proof.
  unfold DMARCReport_init. intros H. inv_Ok. reflexivity.
Qed.

Lemma keeps_store_for_records rs : forall report,
  keeps_store (for_records (S:=S) gethostbyaddr rs report).
Proof.
  induction rs as [|r rs IH]; intros report; cbn.
  - apply keeps_store_ret.
  - apply keeps_store_bind; [apply keeps_store_DMARCRecord_init | intros ?; apply IH].
Qed.

Lemma for_records_filename rs : forall report (w : world S) out w',
  for_records gethostbyaddr rs report w = (Ok out, w') ->
  filename out = filename report.
Proof.
  induction rs as [|r rs IH]; intros report w out w' H; cbn in H; inv_Ok.
  - reflexivity.
  - apply IH in H. exact H.
Qed.

Lemma keeps_store_process_xml xml_file name :
  keeps_store (_process_xml (S:=S) gethostbyaddr xml_file name).
Proof.
  unfold _process_xml.
  apply keeps_store_bind; [apply keeps_store_bs | intros ?].
  apply keeps_store_bind;
    [apply keeps_store_DMARCReport_init | intros ?; apply keeps_store_for_records].
Qed.

Lemma _process_xml_filename xml_file name (w : world S) report w' :
  _process_xml gethostbyaddr xml_file name w = (Ok report, w') ->
  filename report = name.
Proof.
  unfold _process_xml. intros H. inv_Ok.
  apply for_records_filename in H. rewrite H.
  eapply DMARCReport_init_filename; eassumption.
Qed.

Lemma keeps_store_for_namelist namelist archive name :
  keeps_store (for_namelist (S:=S) gethostbyaddr namelist archive name).
Proof.
  induction namelist as [|subfile_name namelist IH]; cbn.
  - apply keeps_store_ret.
  - destruct (endswith subfile_name ".xml"); [|exact IH].
    destruct (archive_open archive subfile_name); [|apply keeps_store_raise].
    apply keeps_store_bind;
      [apply keeps_store_process_xml | intros ?; apply keeps_store_ret].
Qed.

Lemma for_namelist_filename namelist archive name (w : world S) report w' :
  for_namelist gethostbyaddr namelist archive name w = (Ok (Some report), w') ->
  filename report = name.
Proof.
  induction namelist as [|subfile_name namelist IH]; cbn; intros H.
  - discriminate H.
  - destruct (endswith subfile_name ".xml"); [|exact (IH H)].
    destruct (archive_open archive subfile_name); [|discriminate H].
    inv_Ok. eapply _process_xml_filename; eassumption.
Qed.

Lemma keeps_store_process_zipfile fname :
  keeps_store (_process_zipfile (S:=S) gethostbyaddr fname).
Proof.
  intros w o w' H. unfold _process_zipfile in H.
  destruct (files w !! fname) as [[|[members|soup|b]]|];
    try (inversion H; auto; fail).
  eapply keeps_store_for_namelist; eassumption.
Qed.

Lemma _process_zipfile_filename fname (w : world S) report w' :
  _process_zipfile gethostbyaddr fname w = (Ok (Some report), w') ->
  filename report = item_last (split "/" fname).
Proof.
  unfold _process_zipfile. intros H.
  destruct (files w !! fname) as [[|[members|soup|b]]|]; try discriminate H.
  eapply for_namelist_filename; eassumption.
Qed.

Lemma keeps_store_process_gzfile fname :
  keeps_store (_process_gzfile (S:=S) gethostbyaddr fname).
Proof.
  unfold _process_gzfile.
  destruct (endswith _ ".xml"); [|apply keeps_store_ret].
  intros w o w' H.
  destruct (files w !! fname) as [[|[members|soup|b]]|];
    try (inversion H; auto; fail).
  revert H. apply keeps_store_bind;
    [apply keeps_store_process_xml | intros ?; apply keeps_store_ret].
Qed.

Lemma _process_gzfile_filename fname (w : world S) report w' :
  _process_gzfile gethostbyaddr fname w = (Ok (Some report), w') ->
  filename report = item_last (split "/" fname).
Proof.
  unfold _process_gzfile. intros H.
  destruct (endswith _ ".xml"); [|discriminate H].
  destruct (files w !! fname) as [[|[members|soup|b]]|]; try discriminate H.
  inv_Ok. eapply _process_xml_filename; eassumption.
Qed.

(** A report that [parse_report] saved went to the store as it was before
    the call, under the last component of the path of its file. *)
Lemma parse_report_saved root fname (w : world S) w' :
  parse_report gethostbyaddr root fname w = (Ok true, w') ->
  exists report,
    persistent_storage w' = save_new_report (persistent_storage w) report /\
    filename report = item_last (split "/" (root ++ "/" ++ fname)).
Proof.
  unfold parse_report. intros H.
  apply bind_Ok_inv in H as ([report|] & w1 & Hrun & H); [|discriminate H].
  inversion H; subst; clear H. exists report. cbn [persistent_storage].
  destruct (endswith fname ".zip").
  - split.
    + f_equal. eapply keeps_store_process_zipfile; eassumption.
    + eapply _process_zipfile_filename; eassumption.
  - destruct (endswith fname ".gz"); [|discriminate Hrun].
    split.
    + f_equal. eapply keeps_store_process_gzfile; eassumption.
    + eapply _process_gzfile_filename; eassumption.
Qed.

(** A failed [parse_report] has saved nothing. *)
Lemma parse_report_raise root fname (w : world S) e w' :
  parse_report gethostbyaddr root fname w = (Raise e, w') ->
  persistent_storage w' = persistent_storage w.
Proof.
  unfold parse_report. intros H.
  apply bind_Raise_inv in H as [H | ([report|] & w1 & _ & H)]; try discriminate H.
  destruct (endswith fname ".zip");
    [eapply keeps_store_process_zipfile; eassumption|].
  destruct (endswith fname ".gz");
    [eapply keeps_store_process_gzfile; eassumption|].
  discriminate H.
Qed.

(** ** The ingestion driver *)

(** A file the store already has is counted and passed over, wherever it
    lies. *)
Lemma for_files_known root fname rest n n_new (w : world S) :
  report_already_exists (persistent_storage w) fname = true ->
  for_files gethostbyaddr root (fname :: rest) n n_new w =
  for_files gethostbyaddr root rest (Datatypes.S n) n_new w.
Proof. intros H. cbn [for_files]. by rewrite H. Qed.

(** An exception raised while a file is parsed ends the loop over the
    files. *)
Lemma for_files_raise root fname rest n n_new (w : world S) e w' :
  report_already_exists (persistent_storage w) fname = false ->
  parse_report gethostbyaddr root fname w = (Raise e, w') ->
  for_files gethostbyaddr root (fname :: rest) n n_new w = (Raise e, w').
Proof.
  intros Hnew Hraise. cbn [for_files]. rewrite Hnew.
  by rewrite (bind_Raise_eq _ _ _ _ _ Hraise).
Qed.

Lemma for_files_app root l1 : forall l2 n n_new (w : world S),
  for_files gethostbyaddr root (l1 ++ l2) n n_new w =
  bind (for_files gethostbyaddr root l1 n n_new)
       (fun c => for_files gethostbyaddr root l2 (fst c) (snd c)) w.
Proof.
  induction l1 as [|fname l1 IH]; intros l2 n n_new w.
  - reflexivity.
  - cbn [app for_files]. unfold bind in *.
    destruct (report_already_exists (persistent_storage w) fname); [apply IH|].
    destruct (parse_report gethostbyaddr root fname w) as [[[]|e] w1];
      [apply IH | apply IH | reflexivity].
Qed.

Lemma for_walk_app walk1 : forall walk2 n n_new (w : world S),
  for_walk gethostbyaddr (walk1 ++ walk2) n n_new w =
  bind (for_walk gethostbyaddr walk1 n n_new)
       (fun c => for_walk gethostbyaddr walk2 (fst c) (snd c)) w.
Proof.
  induction walk1 as [|[[root directories] fnames] walk1 IH]; intros walk2 n n_new w.
  - reflexivity.
  - cbn [app for_walk]. unfold bind in *.
    destruct (for_files gethostbyaddr root fnames n n_new w) as [[c|e] w1];
      [apply IH | reflexivity].
Qed.

(** An exception that leaves one of the two decoders leaves
    [parse_report] as well, before anything is saved. *)
Lemma parse_report_propagates root fname (w : world S) e w' :
  decode_raises gethostbyaddr root fname w e w' ->
  parse_report gethostbyaddr root fname w = (Raise e, w').
Proof.
  unfold parse_report.
  intros [[Hzip Hraise] | (Hzip & Hgz & Hraise)]; rewrite Hzip, ?Hgz;
    exact (bind_Raise_eq _ _ _ _ _ Hraise).
Qed.

(** An exception that leaves [_process_xml] on the member a zip archive
    opens, or on the stream of a gzip file, leaves the decoder. *)
Lemma _process_zipfile_propagates fname archive before name after xml_file
    (w : world S) e w' :
  files w !! fname = Some (regular (zip_archive archive)) ->
  fst <$> archive = (before ++ name :: after)%list ->
  Forall (fun n => endswith n ".xml" = false) before ->
  endswith name ".xml" = true ->
  archive_open archive name = Some xml_file ->
  _process_xml gethostbyaddr xml_file (item_last (split "/" fname)) w = (Raise e, w') ->
  _process_zipfile gethostbyaddr fname w = (Raise e, w').
Proof.
  intros Hfile Hnames Hbefore Hname Hopen Hraise.
  unfold _process_zipfile. rewrite Hfile, Hnames. clear Hnames.
  induction Hbefore as [|n before Hn _ IH]; cbn [app for_namelist].
  - rewrite Hname, Hopen. exact (bind_Raise_eq _ _ _ _ _ Hraise).
  - rewrite Hn. exact IH.
Qed.

Lemma _process_gzfile_propagates fname gzipfile (w : world S) e w' :
  endswith (replace ".gz" "" (item_last (split "/" fname))) ".xml" = true ->
  files w !! fname = Some (regular (gzip_file gzipfile)) ->
  _process_xml gethostbyaddr gzipfile (item_last (split "/" fname)) w = (Raise e, w') ->
  _process_gzfile gethostbyaddr fname w = (Raise e, w').
Proof.
  intros Hname Hfile Hraise. unfold _process_gzfile. rewrite Hname, Hfile.
  exact (bind_Raise_eq _ _ _ _ _ Hraise).
Qed.

(** C3, as the code has it: when the files before [fname] have been dealt
    with, the store does not know [fname] and the decode of the file
    raises [e], the exception leaves [parse_report] and
    [parse_reports_in_directory]: the run ends with [e] in the world the
    failed decode left, so no later file is looked at, and the store is
    as it was when that file was reached. *)
Theorem decode_error_aborts_run report_dir before root directories
    fnames1 fname fnames2 after (w0 : world S) n1 m1 w1 n m w e w' :
  os_walk report_dir =
    (before ++ (root, directories, fnames1 ++ fname :: fnames2) :: after)%list ->
  for_walk gethostbyaddr before O O w0 = (Ok (n1, m1), w1) ->
  for_files gethostbyaddr root fnames1 n1 m1 w1 = (Ok (n, m), w) ->
  report_already_exists (persistent_storage w) fname = false ->
  decode_raises gethostbyaddr root fname w e w' ->
  parse_report gethostbyaddr root fname w = (Raise e, w') /\
  parse_reports_in_directory gethostbyaddr os_walk report_dir w0 = (Raise e, w') /\
  persistent_storage w' = persistent_storage w.
Proof.
  intros Hwalk Hbefore Hfiles Hnew Hdecode.
  pose proof (parse_report_propagates _ _ _ _ _ Hdecode) as Hraise.
  split_and!; [exact Hraise | | by apply parse_report_raise in Hraise].
  unfold parse_reports_in_directory. rewrite Hwalk, for_walk_app.
  rewrite (bind_Ok_eq _ _ _ _ _ Hbefore). cbn [fst snd for_walk].
  apply bind_Raise_eq.
  rewrite for_files_app, (bind_Ok_eq _ _ _ _ _ Hfiles). cbn [fst snd].
  by apply for_files_raise.
Qed.

(** C10: the report [parse_report] saves carries, as its [filename], the
    last component of the path of its archive, which is the file name
    itself, without the directory, when the name has no [/] in it, as the
    names [os.walk] lists.  The driver asks the store about the file name
    and about nothing else: in every directory the file is passed over
    when the store knows the name, and is parsed when it does not.  So
    once the report is saved in a store that knows a saved report by its
    [filename], a file of the same name is passed over in every
    directory. *)
Theorem dedup_key_is_bare_file_name root fname (w : world S) w' :
  parse_report gethostbyaddr root fname w = (Ok true, w') ->
  (exists report,
     persistent_storage w' = save_new_report (persistent_storage w) report /\
     filename report = item_last (split "/" (root ++ "/" ++ fname)) /\
     (no_slash fname -> filename report = fname)) /\
  (forall root' rest n n_new (w0 : world S),
     for_files gethostbyaddr root' (fname :: rest) n n_new w0 =
     if report_already_exists (persistent_storage w0) fname
     then for_files gethostbyaddr root' rest (Datatypes.S n) n_new w0
     else (parsed <- parse_report gethostbyaddr root' fname ;;
           if parsed : bool
           then for_files gethostbyaddr root' rest (Datatypes.S n) (Datatypes.S n_new)
           else for_files gethostbyaddr root' rest (Datatypes.S n) n_new) w0) /\
  (no_slash fname ->
   (forall (st : S) report,
      report_already_exists (save_new_report st report) (filename report) = true) ->
   forall root' rest n n_new,
     for_files gethostbyaddr root' (fname :: rest) n n_new w' =
     for_files gethostbyaddr root' rest (Datatypes.S n) n_new w').
Proof.
  intros H.
  destruct (parse_report_saved _ _ _ _ H) as (report & Hsaved & Hname).
  assert (Hbare : no_slash fname -> filename report = fname).
  { intros Hns. rewrite Hname, item_last_join. unfold item_last.
    by rewrite (split_no_sep _ _ Hns). }
  split_and!.
  - by exists report.
  - reflexivity.
  - intros Hns Hknown root' rest n n_new. apply for_files_known.
    rewrite Hsaved, <- (Hbare Hns). apply Hknown.
Qed.

End decoder_facts.

(** ** The cache file *)

Section cache_file_facts.

Context {S : Type} {py : Interpreter}.
Variable pickle_dump : gmap string (option string) -> string.
Variable os_makedirs : string -> M S unit.
Variable write_file : string -> string -> M S unit.

(** What reading a file through [open(filepath)] and [pickle.load] gives:
    an exception, whatever the file holds. *)
Lemma load_rdns_records_regular rdns_filename rdns_directory (w : world S) data :
  files w !! os_path_join rdns_directory rdns_filename = Some (regular data) ->
  load_rdns_records rdns_filename rdns_directory w =
  (Raise (if decodes_as_text data then TypeError else UnicodeDecodeError), w).
Proof.
  intros Hfile. unfold load_rdns_records, os_path_isfile, pickle_load_text.
  rewrite Hfile. by destruct (decodes_as_text data).
Qed.

Lemma load_rdns_records_missing rdns_filename rdns_directory (w : world S) :
  files w !! os_path_join rdns_directory rdns_filename = None ->
  load_rdns_records rdns_filename rdns_directory w = (Ok ∅, w).
Proof. intros Hnone. unfold load_rdns_records, os_path_isfile. by rewrite Hnone. Qed.

(** A save that succeeded has been through its write. *)
Lemma save_rdns_records_written rdns_records rdns_filename rdns_directory
    (w w' : world S) :
  save_rdns_records pickle_dump os_makedirs write_file
    rdns_records rdns_filename rdns_directory w = (Ok tt, w') ->
  exists w1,
    write_file (os_path_join rdns_directory rdns_filename) (pickle_dump rdns_records) w1
    = (Ok tt, w').
Proof.
  unfold save_rdns_records. intros H.
  apply bind_Ok_inv in H as (u & w1 & _ & Hwrite). eauto.
Qed.

(** C4, where the code departs from it: with an operating system that
    leaves the bytes of a successful write in the file, the cache that
    [save_rdns_records] saved is not what [load_rdns_records] returns
    from the same place.  The file was written in binary mode and is
    opened in text mode, so [pickle.load] raises a [TypeError] or a
    [UnicodeDecodeError], whatever the cache was; the same holds for
    every file that is at that place.  Only the second half of the claim
    holds: with nothing at the path the empty cache is returned and
    nothing is raised. *)
Theorem saved_cache_cannot_be_loaded rdns_records rdns_filename rdns_directory
    (w w' : world S) :
  (forall path data (w1 w2 : world S),
     write_file path data w1 = (Ok tt, w2) ->
     files w2 !! path = Some (regular (bytes data))) ->
  save_rdns_records pickle_dump os_makedirs write_file
    rdns_records rdns_filename rdns_directory w = (Ok tt, w') ->
  (exists e,
     load_rdns_records rdns_filename rdns_directory w' = (Raise e, w') /\
     (e = TypeError \/ e = UnicodeDecodeError)) /\
  (forall (w0 : world S) data,
     files w0 !! os_path_join rdns_directory rdns_filename = Some (regular data) ->
     exists e,
       load_rdns_records rdns_filename rdns_directory w0 = (Raise e, w0) /\
       (e = TypeError \/ e = UnicodeDecodeError)) /\
  (forall w0 : world S,
     files w0 !! os_path_join rdns_directory rdns_filename = None ->
     load_rdns_records rdns_filename rdns_directory w0 = (Ok ∅, w0)).
Proof.
  intros Hwrite Hsave.
  assert (Hany : forall (w0 : world S) data,
            files w0 !! os_path_join rdns_directory rdns_filename = Some (regular data) ->
            exists e,
              load_rdns_records rdns_filename rdns_directory w0 = (Raise e, w0) /\
              (e = TypeError \/ e = UnicodeDecodeError)).
  { intros w0 data Hfile. eexists. split; [by apply load_rdns_records_regular|].
    destruct (decodes_as_text data); auto. }
  split_and!.
  - apply save_rdns_records_written in Hsave as (w1 & Hw).
    eapply Hany, Hwrite, Hw.
  - exact Hany.
  - apply load_rdns_records_missing.
Qed.

End cache_file_facts.

Lemma write_at_once_written {S : Type} path data (w1 w2 : world S) :
  write_at_once path data w1 = (Ok tt, w2) ->
  files w2 !! path = Some (regular (bytes data)).
Proof.
  unfold write_at_once. intros H.
  destruct (files w1 !! path) as [[|d]|];
    try discriminate H;
    destruct (_ || _); inversion H; apply lookup_insert_eq.
Qed.

Lemma saved_cache_cannot_be_loaded_witness :
  exists w',
    save_rdns_records dump_lines makedirs_one_level write_at_once
      two_addresses "rdns.pickle" "./results" (fresh ∅) = (Ok tt, w') /\
    (exists e,
       load_rdns_records "rdns.pickle" "./results" w' = (Raise e, w') /\
       (e = TypeError \/ e = UnicodeDecodeError)) /\
    load_rdns_records "rdns.pickle" "./results" (fresh ∅) = (Ok ∅, fresh ∅).
Proof.
  eexists. split; [vm_compute; reflexivity|].
  edestruct (saved_cache_cannot_be_loaded dump_lines makedirs_one_level write_at_once
               two_addresses "rdns.pickle" "./results" (fresh ∅))
    as (Hload & _ & Hnone);
    [exact write_at_once_written | vm_compute; reflexivity |].
  split; [exact Hload | apply Hnone; vm_compute; reflexivity].
Defined.

(** ** Archives *)

Lemma decode_error_aborts_run_witness :
  parse_report one_host "./reports" "bad.zip" (fresh malformed_then_good)
  = (Raise AttributeError, fresh malformed_then_good) /\
  parse_reports_in_directory one_host walk_bad_good "./reports"
    (fresh malformed_then_good)
  = (Raise AttributeError, fresh malformed_then_good).
Proof.
  destruct (decode_error_aborts_run one_host walk_bad_good "./reports"
              [] "./reports" [] [] "bad.zip" ["good.zip"] []
              (fresh malformed_then_good) O O (fresh malformed_then_good)
              O O (fresh malformed_then_good) AttributeError
              (fresh malformed_then_good)
              ltac:(vm_compute; reflexivity) ltac:(vm_compute; reflexivity)
              ltac:(vm_compute; reflexivity) ltac:(vm_compute; reflexivity)
              ltac:(left; split; vm_compute; reflexivity))
    as (Hparse & Hrun & _).
  split; assumption.
Defined.

(** C3 as stated fails: with a first archive whose document lacks its
    metadata, and with a first file that is no archive, the run does not
    come to an end with its two counters; the well-formed second archive
    is never reached. *)
Lemma bad_file_ends_the_run :
  ~ (exists counters w',
       parse_reports_in_directory one_host walk_bad_good "./reports"
         (fresh malformed_then_good) = (Ok counters, w')) /\
  ~ (exists counters w',
       parse_reports_in_directory one_host walk_bad_good "./reports"
         (fresh corrupt_then_good) = (Ok counters, w')).
Proof.
  split; intros (counters & w' & H); vm_compute in H; discriminate H.
Qed.

Lemma list_storage_saved_is_known (st : list DMARCReport) report :
  report_already_exists (save_new_report st report) (filename report) = true.
Proof.
  cbn. rewrite existsb_app. cbn. rewrite String.eqb_refl. by rewrite !orb_true_r.
Qed.

Lemma list_storage_known_stays_known (st : list DMARCReport) report fname :
  report_already_exists st fname = true ->
  report_already_exists (save_new_report st report) fname = true.
Proof. cbn. intros H. by rewrite existsb_app, H. Qed.

Lemma dedup_key_is_bare_file_name_witness :
  exists w',
    parse_report one_host "./reports/a" "report.zip" (fresh same_name_twice)
    = (Ok true, w') /\
    (exists report,
       persistent_storage w' = save_new_report [] report /\
       filename report = "report.zip") /\
    for_files one_host "./reports/b" ["report.zip"] 1 1 w' = (Ok (2%nat, 1%nat), w').
Proof.
  eexists. split; [vm_compute; reflexivity|].
  edestruct (dedup_key_is_bare_file_name one_host "./reports/a" "report.zip"
               (fresh same_name_twice))
    as ((report & Hsaved & _ & Hbare) & _ & Hskip); [vm_compute; reflexivity|].
  assert (Hns : no_slash "report.zip") by (vm_compute; intuition discriminate).
  split; [exists report; split; [exact Hsaved | exact (Hbare Hns)]|].
  rewrite (Hskip Hns list_storage_saved_is_known). reflexivity.
Defined.

(** C8, where the code departs from it: [mail.xml.gz.gz] without its
    [.gz] suffix is [mail.xml.gz], which does not end in [.xml], so the
    claim has the extraction return none; [replace] takes both [.gz] out,
    the name passes the test, and [_process_gzfile] goes on to open and
    decode the file: whatever the file holds, the result is not [None]. *)
Theorem gz_inner_suffix_removed_too :
  endswith (without_gz_suffix "mail.xml.gz.gz") ".xml" = false /\
  replace ".gz" "" "mail.xml.gz.gz" = "mail.xml" /\
  forall (S : Type) (py : Interpreter) gethostbyaddr (w : world S),
    fst (_process_gzfile gethostbyaddr "./reports/mail.xml.gz.gz" w) <> Ok None.
Proof.
  split_and!; [reflexivity..|].
  intros S py gethostbyaddr w. unfold _process_gzfile.
  replace (endswith _ ".xml") with true by (vm_compute; reflexivity).
  destruct (files w !! _) as [[|[members|soup|b]]|]; try discriminate.
  unfold bind. destruct (_process_xml _ _ _ w) as [[report|e] w1]; discriminate.
Qed.

(** ** Instances on concrete records *)

Lemma dkim_pass_defined_witness :
  exists rec w',
    DMARCRecord_init one_host record_without_dkim (fresh ∅) = (Ok rec, w') /\
    dkim_pass rec = Some false.
Proof.
  do 2 eexists. split; [vm_compute; reflexivity|].
  refine (proj2 (dkim_pass_defined one_host record_without_dkim (fresh ∅) _ _ _) _ _ _);
    vm_compute; reflexivity.
Defined.

Lemma spf_pass_undefined_witness :
  exists rec w',
    DMARCRecord_init one_host record_without_spf (fresh ∅) = (Ok rec, w') /\
    spf_pass rec = None.
Proof.
  do 2 eexists. split; [vm_compute; reflexivity|].
  refine (spf_pass_undefined one_host record_without_spf (fresh ∅) _ _ _ _ _ _);
    vm_compute; reflexivity.
Defined.

Lemma policy_results_asserted_witness :
  fst (DMARCRecord_init one_host record_with_odd_spf (fresh ∅)) = Raise AssertionError.
Proof.
  refine (proj2 (proj1 (policy_results_asserted one_host record_with_odd_spf (fresh ∅)
                          _ _ _ _ _ _ _ _ _)) _).
  - vm_compute; reflexivity.
  - vm_compute; reflexivity.
  - vm_compute; reflexivity.
  - vm_compute; reflexivity.
  - left. eexists. split; [vm_compute; reflexivity|].
    split; intros E; vm_compute in E; discriminate E.
Defined.

(** C7 as stated fails: in a record whose [policy_evaluated] has an [spf]
    that reads [softfail] and has no [disposition], the constructor does
    not reach the check; it ends with the [AttributeError] of the missing
    [disposition], not with an [AssertionError]. *)
Lemma odd_result_without_disposition :
  ~ (forall policy,
       policy_evaluated_of record_with_odd_spf_without_disposition = Some policy ->
       (fst (DMARCRecord_init one_host record_with_odd_spf_without_disposition (fresh ∅))
        = Raise AssertionError <->
        odd_policy_result (find "spf" policy) \/ odd_policy_result (find "dkim" policy))).
Proof.
  intros H.
  edestruct H as [_ Hraise]; [vm_compute; reflexivity|].
  assert (Hodd : fst (DMARCRecord_init one_host record_with_odd_spf_without_disposition
                        (fresh ∅)) = Raise AssertionError).
  { apply Hraise. left. eexists. split; [vm_compute; reflexivity|].
    split; intros E; vm_compute in E; discriminate E. }
  vm_compute in Hodd. discriminate Hodd.
Qed.



Lemma dkim_signatures_filtered_witness :
  exists rec w',
    DMARCRecord_init one_host mixed_dkim_record (fresh ∅) = (Ok rec, w') /\
    exists auth_results entries,
      find "auth_results" mixed_dkim_record = Some auth_results /\
      mapM dkim_entry_of (find_all "dkim" auth_results) = Some entries /\
      dkim_signatures rec = filter (fun e => ~ dkim_excluded e) entries.
Proof.
  do 2 eexists. split; [vm_compute; reflexivity|].
  eapply (dkim_signatures_filtered one_host mixed_dkim_record (fresh ∅)).
  vm_compute. reflexivity.
Defined.

(** C1 as stated fails: the one signature of [none_for_real_domain] has
    the result [none] and a real domain, so the two conditions do not both
    hold and the stated rule keeps it; the constructor leaves it out. *)
Lemma dkim_filter_needs_one_condition_only :
  ~ (forall rec w',
       DMARCRecord_init no_ptr none_for_real_domain (fresh ∅) = (Ok rec, w') ->
       exists auth_results entries,
         find "auth_results" none_for_real_domain = Some auth_results /\
         mapM dkim_entry_of (find_all "dkim" auth_results) = Some entries /\
         dkim_signatures rec =
           filter (fun e => ~ dkim_excluded_as_specified e) entries).
Proof.
  intros H.
  edestruct H as (auth & entries & Ha & Hm & Hsig); [vm_compute; reflexivity|].
  vm_compute in Ha. injection Ha as <-.
  vm_compute in Hm. injection Hm as <-.
  vm_compute in Hsig. discriminate Hsig.
Qed.

(** * Further properties *)

(** ** Computations that follow a relation *)

Section respects_facts.

Context {S : Type} {py : Interpreter} (R : relation (world S)) `{!PreOrder R}.

Lemma respects_ret {A : Type} (a : A) : respects R (@ret S A a).
Proof. intros w o w' H. inversion H. reflexivity. Qed.

Lemma respects_raise {A : Type} e : respects R (@raise S A e).
Proof. intros w o w' H. inversion H. reflexivity. Qed.

Lemma respects_bind {A B : Type} (m : M S A) (k : A -> M S B) :
  respects R m -> (forall a, respects R (k a)) -> respects R (bind m k).
Proof.
  intros Hm Hk w o w' H. unfold bind in H.
  destruct (m w) as [[a|e] w1] eqn:E; pose proof (Hm _ _ _ E) as H1.
  - etransitivity; [exact H1 | exact (Hk _ _ _ _ H)].
  - by inversion H; subst.
Qed.

Lemma respects_dot o name : respects R (@dot S o name).
Proof. destruct o; [apply respects_ret | apply respects_raise]. Qed.

Lemma respects_dot_text o : respects R (@dot_text S o).
Proof. destruct o; [apply respects_ret | apply respects_raise]. Qed.

Lemma respects_assert b : respects R (@assert S b).
Proof. destruct b; [apply respects_ret | apply respects_raise]. Qed.

Lemma respects_int_or_raise s : respects R (int_or_raise (S:=S) s).
Proof.
  unfold int_or_raise. destruct (int s); [apply respects_ret | apply respects_raise].
Qed.

Lemma respects_utcfromtimestamp t : respects R (utcfromtimestamp (S:=S) t).
Proof.
  unfold utcfromtimestamp.
  destruct (utcfromtimestamp_refuses t); [apply respects_raise | apply respects_ret].
Qed.

Lemma respects_bs xml_file : respects R (@bs S xml_file).
Proof. destruct xml_file; [apply respects_ret | apply respects_raise]. Qed.

Lemma respects_for_spf_results l : forall acc,
  respects R (for_spf_results (S:=S) l acc).
Proof.
  induction l as [|x l IH]; intros acc; cbn.
  - apply respects_ret.
  - repeat (apply respects_bind; [apply respects_dot_text | intros ?]).
    apply IH.
Qed.

Lemma respects_for_dkim_signatures l : forall acc,
  respects R (for_dkim_signatures (S:=S) l acc).
Proof.
  induction l as [|x l IH]; intros acc; cbn.
  - apply respects_ret.
  - repeat (apply respects_bind; [apply respects_dot_text | intros ?]).
    destruct (dkim_kept _ _); apply IH.
Qed.

End respects_facts.

Create HintDb moves.

#[export] Hint Resolve respects_ret respects_raise respects_dot
  respects_dot_text respects_assert respects_int_or_raise
  respects_utcfromtimestamp respects_bs respects_for_spf_results
  respects_for_dkim_signatures : moves.

(** Splits a sequence of binds along the relation. *)
#[export] Hint Extern 1 (PreOrder _) => apply _ : moves.

Ltac moves :=
  repeat first
    [ apply respects_bind; [first [assumption | apply _]| |intros ?]
    | solve [auto with moves]
    | match goal with
      | |- respects _ (match ?x with _ => _ end) => destruct x
      end ].

(** The decoder follows every preorder that the address lookup follows;
    the driver follows it too when saving a report does. *)
Section decoder_respects.

Context {S : Type} {py : Interpreter} `{!Storage S} (R : relation (world S)) `{!PreOrder R}.
Variable gethostbyaddr : list string -> string -> lookup.
Variable os_walk : string -> list (string * list string * list string).

Hypothesis R_lookup : forall ip_address, respects R (_lookup_ip gethostbyaddr ip_address).

Lemma respects_DMARCRecord_init record_xml :
  respects R (DMARCRecord_init gethostbyaddr record_xml).
Proof. unfold DMARCRecord_init. moves. Qed.

Lemma respects_DMARCReport_init name metadata_xml policy_xml :
  respects R (DMARCReport_init (S:=S) name metadata_xml policy_xml).
Proof. unfold DMARCReport_init. moves. Qed.

Lemma respects_for_records rs : forall report,
  respects R (for_records gethostbyaddr rs report).
Proof.
  induction rs as [|r rs IH]; intros report; cbn.
  - apply (respects_ret R).
  - apply (respects_bind R); [apply respects_DMARCRecord_init | intros ?; apply IH].
Qed.

Lemma respects_process_xml xml_file name :
  respects R (_process_xml gethostbyaddr xml_file name).
Proof.
  unfold _process_xml.
  apply (respects_bind R); [apply (respects_bs R) | intros ?].
  apply (respects_bind R);
    [apply respects_DMARCReport_init | intros ?; apply respects_for_records].
Qed.

Lemma respects_for_namelist namelist archive name :
  respects R (for_namelist gethostbyaddr namelist archive name).
Proof.
  induction namelist as [|subfile_name namelist IH]; cbn.
  - apply (respects_ret R).
  - destruct (endswith subfile_name ".xml"); [|exact IH].
    destruct (archive_open archive subfile_name); [|apply (respects_raise R)].
    apply (respects_bind R);
      [apply respects_process_xml | intros ?; apply (respects_ret R)].
Qed.

Lemma respects_process_zipfile fname :
  respects R (_process_zipfile gethostbyaddr fname).
Proof.
  intros w o w' H. unfold _process_zipfile in H.
  destruct (files w !! fname) as [[|[members|soup|b]]|];
    try (inversion H; reflexivity).
  eapply respects_for_namelist; eassumption.
Qed.

Lemma respects_process_gzfile fname :
  respects R (_process_gzfile gethostbyaddr fname).
Proof.
  unfold _process_gzfile.
  destruct (endswith _ ".xml"); [|apply (respects_ret R)].
  intros w o w' H.
  destruct (files w !! fname) as [[|[members|soup|b]]|];
    try (inversion H; reflexivity).
  revert H. apply (respects_bind R);
    [apply respects_process_xml | intros ?; apply (respects_ret R)].
Qed.

Hypothesis R_save : forall (w : world S) report,
  R w (World (_rdns_records w) (gethostbyaddr_calls w) (files w)
             (save_new_report (persistent_storage w) report)).

Lemma respects_parse_report root fname :
  respects R (parse_report gethostbyaddr root fname).
Proof.
  unfold parse_report. apply (respects_bind R).
  - destruct (endswith fname ".zip"); [apply respects_process_zipfile|].
    destruct (endswith fname ".gz"); [apply respects_process_gzfile|].
    apply (respects_ret R).
  - intros [report|]; [|apply (respects_ret R)].
    intros w o w' H. inversion H. apply R_save.
Qed.

Lemma respects_for_files root fnames : forall n n_new,
  respects R (for_files gethostbyaddr root fnames n n_new).
Proof.
  induction fnames as [|fname fnames IH]; intros n n_new; cbn [for_files].
  - apply (respects_ret R).
  - intros w o w'.
    destruct (report_already_exists (persistent_storage w) fname); [apply IH|].
    apply (respects_bind R); [apply respects_parse_report|].
    intros []; apply IH.
Qed.

Lemma respects_for_walk walk : forall n n_new,
  respects R (for_walk gethostbyaddr walk n n_new).
Proof.
  induction walk as [|[[root directories] fnames] walk IH]; intros n n_new;
    cbn [for_walk].
  - apply (respects_ret R).
  - apply (respects_bind R); [apply respects_for_files | intros ?; apply IH].
Qed.

Lemma respects_parse_reports_in_directory report_dir :
  respects R (parse_reports_in_directory gethostbyaddr os_walk report_dir).
Proof. apply respects_for_walk. Qed.

End decoder_respects.

(** ** The resolver cache over a run *)

Section cache_facts.

Context {S : Type} `{!Storage S} {py : Interpreter}.
Variable gethostbyaddr : list string -> string -> lookup.
Variable os_walk : string -> list (string * list string * list string).

#[local] Instance cache_grows_preorder : PreOrder (@cache_grows S).
Proof.
  split.
  - intros w. unfold cache_grows. split_and!; [reflexivity..| |reflexivity]; auto.
  - intros w1 w2 w3 (Hf1 & Hc1 & Hn1 & Hq1) (Hf2 & Hc2 & Hn2 & Hq2).
    unfold cache_grows. split_and!.
    + congruence.
    + by etransitivity.
    + intros ip_address h H3.
      destruct (Hn2 _ _ H3) as [H2|?]; [|by right].
      exact (Hn1 _ _ H2).
    + by etransitivity.
Qed.

Lemma cache_grows_lookup ip_address :
  respects cache_grows (_lookup_ip (S:=S) gethostbyaddr ip_address).
Proof.
  intros w o w' H. unfold _lookup_ip in H.
  destruct (_rdns_records w !! ip_address) as [h|] eqn:Hc.
  - inversion H; subst. reflexivity.
  - assert (Hq : gethostbyaddr_calls w `prefix_of` (gethostbyaddr_calls w ++ [ip_address])%list)
      by apply prefix_app_r, reflexivity.
    destruct (gethostbyaddr (gethostbyaddr_calls w) ip_address) as [hostname|e].
    + inversion H; subst; clear H. unfold cache_grows; cbn.
      split_and!; [reflexivity | by apply insert_subseteq | | exact Hq].
      intros ip' h Hl. destruct (decide (ip_address = ip')) as [->|Hne].
      * rewrite lookup_insert_eq in Hl. right. eexists. by injection Hl as <-.
      * rewrite lookup_insert_ne in Hl by done. by left.
    + assert (w' = World (_rdns_records w) (gethostbyaddr_calls w ++ [ip_address])
                         (files w) (persistent_storage w)) as ->
        by (destruct e; inversion H; reflexivity).
      unfold cache_grows; cbn. split_and!; [reflexivity..| |exact Hq]; auto.
Qed.

Lemma cache_grows_save (w : world S) report :
  cache_grows w (World (_rdns_records w) (gethostbyaddr_calls w) (files w)
                       (save_new_report (persistent_storage w) report)).
Proof. unfold cache_grows; cbn. split_and!; [reflexivity..| |reflexivity]; auto. Qed.

(** X1: when an address that is not in the cache resolves, the name is
    returned and cached with one query; a second call for the address
    returns the same name and leaves the world, and with it the record of
    queries, as it is. *)
Theorem resolved_lookup_is_cached ip_address (w : world S) hostname o w' :
  _rdns_records w !! ip_address = None ->
  gethostbyaddr (gethostbyaddr_calls w) ip_address = resolved hostname ->
  _lookup_ip gethostbyaddr ip_address w = (o, w') ->
  o = Ok (Some hostname) /\
  gethostbyaddr_calls w' = (gethostbyaddr_calls w ++ [ip_address])%list /\
  _rdns_records w' = <[ip_address := Some hostname]> (_rdns_records w) /\
  _lookup_ip gethostbyaddr ip_address w' = (Ok (Some hostname), w').
Proof.
  intros Hmiss Hres H.
  destruct (_lookup_ip_resolved gethostbyaddr _ _ _ _ _ Hmiss Hres H) as (-> & _ & Hagain).
  unfold _lookup_ip in H. rewrite Hmiss, Hres in H. inversion H; subst; clear H.
  auto.
Qed.

(** X2: whatever a run over a directory does and however it ends, it
    leaves the files alone, keeps every entry of the cache, adds to the
    cache only resolved names, and only adds to the record of queries. *)
Theorem run_only_grows_cache report_dir (w : world S) :
  cache_grows w (snd (parse_reports_in_directory gethostbyaddr os_walk report_dir w)).
Proof.
  destruct (parse_reports_in_directory gethostbyaddr os_walk report_dir w)
    as [o w'] eqn:H.
  revert H. apply (respects_parse_reports_in_directory cache_grows).
  - apply cache_grows_lookup.
  - apply cache_grows_save.
Qed.


(** X4: the constructor raises an [AttributeError], an [AssertionError] or
    a [ValueError], or else the exception that the lookup of the source
    address raised; it raises nothing else. *)
Theorem record_exceptions record_xml (w : world S) e w' :
  DMARCRecord_init gethostbyaddr record_xml w = (Raise e, w') ->
  e = AttributeError \/ e = AssertionError \/ e = ValueError \/
  exists source_ip,
    find "source_ip" record_xml = Some source_ip /\
    _lookup_ip gethostbyaddr (text source_ip) w = (Raise e, w').
Proof.
  unfold DMARCRecord_init. intros H.
  inv_Raise; simplify_eq; auto.
  - right. right. right. eexists. split; eassumption.
  - match goal with
    | H : match find "spf" ?p with _ => _ end _ = _ |- _ =>
        destruct (find "spf" p); [|discriminate H];
        apply bind_Raise_inv in H as [H|(? & ? & ? & H)]; [|discriminate H];
        apply assert_Raise_inv in H as (-> & _)
    end. auto.
  - match goal with
    | H : match find "dkim" ?p with _ => _ end _ = _ |- _ =>
        destruct (find "dkim" p); [|discriminate H];
        apply bind_Raise_inv in H as [H|(? & ? & ? & H)]; [|discriminate H];
        apply assert_Raise_inv in H as (-> & _)
    end. auto.
  - destruct (find "auth_results" record_xml); inv_Raise; auto.
    + match goal with H : for_spf_results _ _ _ = _ |- _ =>
        apply for_spf_results_Raise in H end. auto.
    + match goal with H : for_dkim_signatures _ _ _ = _ |- _ =>
        apply for_dkim_signatures_Raise in H end. auto.
Qed.

End cache_facts.

(** ** The fields of a record *)

Section field_facts.

Context {S : Type} {py : Interpreter}.
Variable gethostbyaddr : list string -> string -> lookup.

Lemma for_spf_results_entries l : forall acc (w : world S) out w',
  for_spf_results l acc w = (Ok out, w') ->
  exists entries, mapM spf_entry_of l = Some entries /\ out = (acc ++ entries)%list.
Proof.
  induction l as [|x l IH]; intros acc w out w' H; cbn in H.
  - inv_Ok. exists []. by rewrite app_nil_r.
  - inv_Ok. apply IH in H as (entries & Hm & ->).
    eexists (_ :: entries). split.
    + apply mapM_cons_Some; [|exact Hm]. unfold spf_entry_of.
      repeat match goal with E : find _ x = Some _ |- _ => rewrite E; clear E end.
      reflexivity.
    + by rewrite <- app_assoc.
Qed.

(** What a finished constructor has set besides the flags. *)
Lemma DMARCRecord_init_fields record_xml (w : world S) rec w' :
  DMARCRecord_init gethostbyaddr record_xml w = (Ok rec, w') ->
  exists policy identifiers auth_results,
    policy_evaluated_of record_xml = Some policy /\
    find "identifiers" record_xml = Some identifiers /\
    find "auth_results" record_xml = Some auth_results /\
    reason rec = match find "reason" policy with
                 | Some r => text <$> find "type" r
                 | None => None
                 end /\
    header_from rec = text <$> find "header_from" identifiers /\
    envelope_from rec = text <$> find "envelope_from" identifiers /\
    mapM spf_entry_of (find_all "spf" auth_results) = Some (spf_results rec).
Proof.
  unfold DMARCRecord_init. intros H. inv_Ok.
  destruct (find "auth_results" record_xml) as [auth|] eqn:Eauth; [|discriminate H].
  inv_Ok. simplify_eq.
  match goal with
  | H : for_spf_results _ _ _ = (Ok _, _) |- _ =>
      apply for_spf_results_entries in H as (entries & Hm & ->)
  end.
  match goal with
  | Er : find "row" _ = Some ?row, Ep : find "policy_evaluated" ?row = Some ?p,
    Ei : find "identifiers" _ = Some ?i |- _ =>
      exists p, i, auth; unfold policy_evaluated_of; rewrite Er
  end.
  cbn [reason header_from envelope_from spf_results app].
  split_and!; try reflexivity; assumption.
Qed.

(** X5: the SPF results of a constructed record are the entries of all
    the [spf] elements of [auth_results], in document order; none is left
    out. *)
Theorem spf_results_unfiltered record_xml (w : world S) rec w' :
  DMARCRecord_init gethostbyaddr record_xml w = (Ok rec, w') ->
  exists auth_results,
    find "auth_results" record_xml = Some auth_results /\
    mapM spf_entry_of (find_all "spf" auth_results) = Some (spf_results rec) /\
    length (spf_results rec) = length (find_all "spf" auth_results).
Proof.
  intros H.
  apply DMARCRecord_init_fields in H as (_ & _ & auth & _ & _ & Hauth & _ & _ & _ & Hm).
  exists auth. split_and!; [done..|].
  symmetry. by eapply length_mapM.
Qed.

(** X6: the optional fields of a constructed record: [reason] is the text
    of [policy_evaluated.reason.type] when both elements are there, and
    [header_from] and [envelope_from] are the texts of the children of
    [identifiers]; each is [None] when its element is missing. *)
Theorem optional_fields record_xml (w : world S) rec w' :
  DMARCRecord_init gethostbyaddr record_xml w = (Ok rec, w') ->
  exists policy identifiers,
    policy_evaluated_of record_xml = Some policy /\
    find "identifiers" record_xml = Some identifiers /\
    reason rec = (find "reason" policy ≫= fun r => text <$> find "type" r) /\
    header_from rec = text <$> find "header_from" identifiers /\
    envelope_from rec = text <$> find "envelope_from" identifiers.
Proof.
  intros H.
  apply DMARCRecord_init_fields in H
    as (policy & identifiers & _ & Hp & Hi & _ & Hr & Hh & He & _).
  exists policy, identifiers. by split_and!.
Qed.

(** X7: the address, the host and the disposition of a constructed record:
    [ip] is the text of [source_ip], [host] is what [_lookup_ip] returned
    for it, and the world after the construction is the world after that
    lookup; [disposition] is the text of [policy_evaluated.disposition]. *)
Theorem sender_fields record_xml (w : world S) rec w' :
  DMARCRecord_init gethostbyaddr record_xml w = (Ok rec, w') ->
  exists source_ip policy disposition_tag,
    find "source_ip" record_xml = Some source_ip /\
    ip rec = text source_ip /\
    _lookup_ip gethostbyaddr (ip rec) w = (Ok (host rec), w') /\
    policy_evaluated_of record_xml = Some policy /\
    find "disposition" policy = Some disposition_tag /\
    disposition rec = text disposition_tag.
Proof.
  intros H.
  apply DMARCRecord_init_Ok in H
    as (src & policy & d & _ & _ & _ & Hs & Hip & Hl & Hp & Hd & Hdt & _).
  exists src, policy, d. rewrite Hip. auto 10.
Qed.

End field_facts.

Lemma spf_results_unfiltered_witness :
  exists rec w',
    DMARCRecord_init one_host good_record (fresh ∅) = (Ok rec, w') /\
    exists auth_results,
      find "auth_results" good_record = Some auth_results /\
      mapM spf_entry_of (find_all "spf" auth_results) = Some (spf_results rec) /\
      length (spf_results rec) = length (find_all "spf" auth_results).
Proof.
  do 2 eexists. split; [vm_compute; reflexivity|].
  eapply (spf_results_unfiltered one_host good_record (fresh ∅)).
  vm_compute; reflexivity.
Defined.

Lemma optional_fields_witness :
  exists rec w',
    DMARCRecord_init one_host good_record (fresh ∅) = (Ok rec, w') /\
    exists policy identifiers,
      policy_evaluated_of good_record = Some policy /\
      find "identifiers" good_record = Some identifiers /\
      reason rec = (find "reason" policy ≫= fun r => text <$> find "type" r) /\
      header_from rec = text <$> find "header_from" identifiers /\
      envelope_from rec = text <$> find "envelope_from" identifiers.
Proof.
  do 2 eexists. split; [vm_compute; reflexivity|].
  eapply (optional_fields one_host good_record (fresh ∅)).
  vm_compute; reflexivity.
Defined.

Lemma sender_fields_witness :
  exists rec w',
    DMARCRecord_init one_host good_record (fresh ∅) = (Ok rec, w') /\
    exists source_ip policy disposition_tag,
      find "source_ip" good_record = Some source_ip /\
      ip rec = text source_ip /\
      _lookup_ip one_host (ip rec) (fresh ∅) = (Ok (host rec), w') /\
      policy_evaluated_of good_record = Some policy /\
      find "disposition" policy = Some disposition_tag /\
      disposition rec = text disposition_tag.
Proof.
  do 2 eexists. split; [vm_compute; reflexivity|].
  eapply (sender_fields one_host good_record (fresh ∅)).
  vm_compute; reflexivity.
Defined.

Lemma resolved_lookup_is_cached_witness :
  exists o w',
    _lookup_ip one_host "192.0.2.1" (fresh ∅) = (o, w') /\
    o = Ok (Some "mail.example.org") /\
    gethostbyaddr_calls w' = ["192.0.2.1"] /\
    _rdns_records w' = {[ "192.0.2.1" := Some "mail.example.org" ]} /\
    _lookup_ip one_host "192.0.2.1" w' = (Ok (Some "mail.example.org"), w').
Proof.
  do 2 eexists. split; [vm_compute; reflexivity|].
  refine (resolved_lookup_is_cached one_host "192.0.2.1" (fresh ∅)
            "mail.example.org" _ _ _ _ _);
    vm_compute; reflexivity.
Defined.

Lemma record_exceptions_witness :
  exists e w',
    DMARCRecord_init one_host record_with_odd_spf (fresh ∅) = (Raise e, w') /\
    (e = AttributeError \/ e = AssertionError \/ e = ValueError \/
     exists source_ip,
       find "source_ip" record_with_odd_spf = Some source_ip /\
       _lookup_ip one_host (text source_ip) (fresh ∅) = (Raise e, w')).
Proof.
  do 2 eexists. split; [vm_compute; reflexivity|].
  eapply (record_exceptions one_host record_with_odd_spf (fresh ∅)).
  vm_compute; reflexivity.
Defined.


(** ** Reports and archives *)

Lemma split_pieces_no_sep sep s :
  Forall (fun piece => ~ In sep (list_ascii_of_string piece)) (split sep s).
Proof.
  induction s as [|c s IH]; cbn [split].
  - constructor; [intros []|constructor].
  - destruct (Ascii.eqb_spec c sep) as [->|Hne].
    + constructor; [intros []|exact IH].
    + destruct (split sep s) as [|piece pieces]; [repeat constructor|].
      * cbn. intros [?|[]]. contradiction.
      * inversion IH; subst. constructor; [|assumption].
        cbn. intros [?|?]; contradiction.
Qed.

(** The last component of a path has no [/] in it. *)
Lemma item_last_no_slash s : no_slash (item_last (split "/" s)).
Proof.
  unfold no_slash, item_last.
  pose proof (split_pieces_no_sep "/" s) as Hall.
  pose proof (split_nonempty "/" s) as Hne.
  destruct (exists_last Hne) as (front & piece & Heq). rewrite Heq in *.
  rewrite last_last. apply Forall_app in Hall as [_ Hlast].
  by inversion Hlast.
Qed.

Section report_facts.

Context {S : Type} `{!Storage S} {py : Interpreter}.
Variable gethostbyaddr : list string -> string -> lookup.

(** What a finished [DMARCReport.__init__] has read and set. *)
Lemma DMARCReport_init_Ok name metadata_xml policy_xml (w : world S) report w' :
  DMARCReport_init name metadata_xml policy_xml w = (Ok report, w') ->
  w' = w /\ filename report = name /\ records report = [] /\
  exists metadata report_id_tag org_name date_range begin_tag end_tag,
    metadata_xml = Some metadata /\
    find "report_id" metadata = Some report_id_tag /\
    report_id report = text report_id_tag /\
    find "org_name" metadata = Some org_name /\
    receiver report = text org_name /\
    find "date_range" metadata = Some date_range /\
    find "begin" date_range = Some begin_tag /\
    int (text begin_tag) = Some (start_date report) /\
    utcfromtimestamp_refuses (start_date report) = None /\
    find "end" date_range = Some end_tag /\
    int (text end_tag) = Some (end_date report) /\
    utcfromtimestamp_refuses (end_date report) = None.
Proof.
  unfold DMARCReport_init. intros H. inv_Ok.
  simplify_eq. split_and!; try reflexivity.
  do 6 eexists. split_and!; try eassumption; reflexivity.
Qed.

Lemma for_records_constructed rs : forall report (w : world S) out w',
  for_records gethostbyaddr rs report w = (Ok out, w') ->
  report_id out = report_id report /\ receiver out = receiver report /\
  start_date out = start_date report /\ end_date out = end_date report /\
  exists new,
    records out = (records report ++ new)%list /\
    construct_all gethostbyaddr rs w = (Ok new, w').
Proof.
  induction rs as [|r rs IH]; intros report w out w' H; cbn in H; inv_Ok.
  - split_and!; try reflexivity. exists []. by rewrite app_nil_r.
  - apply IH in H as (Hid & Hrc & Hs & He & new & Hrec & Hall).
    cbn in Hid, Hrc, Hs, He, Hrec. split_and!; try assumption.
    eexists (_ :: new). split.
    + by rewrite Hrec, <- app_assoc.
    + cbn [construct_all].
      match goal with
      | H1 : DMARCRecord_init _ _ _ = _ |- _ => rewrite (bind_Ok_eq _ _ _ _ _ H1)
      end.
      by rewrite (bind_Ok_eq _ _ _ _ _ Hall).
Qed.

Lemma construct_all_length rs : forall (w : world S) new w',
  construct_all gethostbyaddr rs w = (Ok new, w') -> length new = length rs.
Proof.
  induction rs as [|r rs IH]; intros w new w' H; cbn in H; inv_Ok.
  - reflexivity.
  - cbn. f_equal. eauto.
Qed.

(** X8: a decoded report has one record for every [record] element of the
    document, in document order: its records are the records the
    constructor builds from these elements one after the other, starting
    in the world the decode started in, each in the world the one before
    it left, and the world the decode leaves is the world the last one
    left. *)
Theorem one_record_per_element xml_file name (w : world S) report w' :
  _process_xml gethostbyaddr xml_file name w = (Ok report, w') ->
  exists report_xml,
    xml_file = readable report_xml /\
    construct_all gethostbyaddr (find_all "record" report_xml) w
    = (Ok (records report), w') /\
    length (records report) = length (find_all "record" report_xml).
Proof.
  unfold _process_xml. intros H. inv_Ok.
  match goal with
  | H0 : DMARCReport_init _ _ _ _ = _ |- _ =>
      apply DMARCReport_init_Ok in H0 as (-> & _ & Hnil & _)
  end.
  apply for_records_constructed in H as (_ & _ & _ & _ & new & Hrec & Hall).
  rewrite Hnil in Hrec. cbn in Hrec. subst new.
  eexists. split_and!; [reflexivity | exact Hall |].
  by eapply construct_all_length.
Qed.

(** X9: the identity of a decoded report comes from [report_metadata]:
    [id] and [receiver] are the texts of [report_id] and [org_name], the
    two dates are built from the integers that [int] reads in
    [date_range.begin] and [date_range.end], neither of which
    [utcfromtimestamp] refused, and [filename] is the name that was
    passed in. *)
Theorem report_identity xml_file name (w : world S) report w' :
  _process_xml gethostbyaddr xml_file name w = (Ok report, w') ->
  filename report = name /\
  exists report_xml metadata report_id_tag org_name date_range begin_tag end_tag,
    xml_file = readable report_xml /\
    find "report_metadata" report_xml = Some metadata /\
    find "report_id" metadata = Some report_id_tag /\
    report_id report = text report_id_tag /\
    find "org_name" metadata = Some org_name /\
    receiver report = text org_name /\
    find "date_range" metadata = Some date_range /\
    find "begin" date_range = Some begin_tag /\
    int (text begin_tag) = Some (start_date report) /\
    utcfromtimestamp_refuses (start_date report) = None /\
    find "end" date_range = Some end_tag /\
    int (text end_tag) = Some (end_date report) /\
    utcfromtimestamp_refuses (end_date report) = None.
Proof.
  intros H. split; [by eapply _process_xml_filename|].
  unfold _process_xml in H. inv_Ok.
  match goal with
  | H0 : DMARCReport_init _ _ _ _ = _ |- _ =>
      apply DMARCReport_init_Ok
        in H0 as (_ & _ & _ & md & idt & org & dr & bt & et & Hmd & Hi & Hid
                  & Ho & Hrc & Hd & Hb & Hs & Hsr & He & Hen & Her)
  end.
  apply for_records_constructed in H as (Hid' & Hrc' & Hs' & He' & _).
  eexists _, md, idt, org, dr, bt, et.
  rewrite Hid', Hrc', Hs', He'. by split_and!.
Qed.

(** The member [archive.open] returns for a name is the last member of
    the archive that bears the name. *)
Lemma archive_open_last archive name xml_file :
  archive_open archive name = Some xml_file <->
  exists front back,
    archive = (front ++ (name, xml_file) :: back)%list /\
    Forall (fun member => fst member <> name) back.
Proof.
  split.
  - revert xml_file. induction archive as [|[n x] archive IH]; intros xml_file H;
      cbn in H; [discriminate H|].
    destruct (archive_open archive name) as [later|] eqn:Hlater.
    + injection H as <-. destruct (IH _ eq_refl) as (front & back & -> & Hback).
      by exists ((n, x) :: front), back.
    + destruct (String.eqb_spec n name) as [->|Hne]; [|discriminate H].
      injection H as <-. exists [], archive. split; [reflexivity|].
      clear IH. induction archive as [|[n' x'] archive IH]; [constructor|].
      cbn in Hlater.
      destruct (archive_open archive name); [discriminate Hlater|].
      destruct (String.eqb_spec n' name) as [->|Hne]; [discriminate Hlater|].
      constructor; [exact Hne | by apply IH].
  - intros (front & back & -> & Hback).
    assert (Hnone : archive_open back name = None).
    { induction Hback as [|[n x] back Hn _ IH]; [reflexivity|].
      cbn in *. rewrite IH. destruct (String.eqb_spec n name); congruence. }
    induction front as [|[n x] front IH]; cbn.
    + by rewrite Hnone, String.eqb_refl.
    + by rewrite IH.
Qed.

Lemma for_namelist_skips before : forall name after archive archive_name (w : world S),
  Forall (fun n => endswith n ".xml" = false) before ->
  endswith name ".xml" = true ->
  for_namelist gethostbyaddr (before ++ name :: after) archive archive_name w =
  match archive_open archive name with
  | Some xml_file =>
      (report <- _process_xml gethostbyaddr xml_file archive_name ;; ret (Some report)) w
  | None => (Raise KeyError, w)
  end.
Proof.
  induction before as [|n before IH]; intros name after archive archive_name w Hb Hn;
    cbn [app for_namelist].
  - rewrite Hn. by destruct (archive_open archive name).
  - inversion Hb as [|? ? Hhead Htail]; subst. rewrite Hhead.
    by apply IH.
Qed.

(** X10: of the names of a zip archive, in the order of [namelist], the
    first that ends in [.xml] is the one that is opened; the names before
    it are passed over and the names after it play no part.  What is
    decoded under that name is the last member of the archive that bears
    it. *)
Theorem first_xml_member_wins fname (w : world S) archive before name after :
  files w !! fname = Some (regular (zip_archive archive)) ->
  fst <$> archive = (before ++ name :: after)%list ->
  Forall (fun n => endswith n ".xml" = false) before ->
  endswith name ".xml" = true ->
  exists front xml_file back,
    archive = (front ++ (name, xml_file) :: back)%list /\
    Forall (fun member => fst member <> name) back /\
    _process_zipfile gethostbyaddr fname w =
    (report <- _process_xml gethostbyaddr xml_file (item_last (split "/" fname)) ;;
     ret (Some report)) w.
Proof.
  intros Hfile Hnames Hbefore Hname.
  assert (Hin : exists xml_file, archive_open archive name = Some xml_file).
  { assert (Hmem : In name (fst <$> archive))
      by (rewrite Hnames; apply in_or_app; right; by left).
    clear -Hmem. induction archive as [|[n x] archive IH]; [destruct Hmem|].
    cbn. destruct (archive_open archive name) as [later|] eqn:Hl; [eauto|].
    destruct Hmem as [Heq|Hmem].
    - cbn in Heq. subst n. rewrite String.eqb_refl. eauto.
    - destruct (IH Hmem) as (? & ?). discriminate. }
  destruct Hin as (xml_file & Hopen).
  destruct (proj1 (archive_open_last _ _ _) Hopen) as (front & back & Harch & Hback).
  exists front, xml_file, back. split_and!; [assumption..|].
  unfold _process_zipfile. rewrite Hfile, Hnames.
  rewrite for_namelist_skips by assumption. by rewrite Hopen.
Qed.

Lemma for_namelist_None namelist archive archive_name (w : world S) w' :
  for_namelist gethostbyaddr namelist archive archive_name w = (Ok None, w') -> w' = w.
Proof.
  induction namelist as [|n namelist IH]; cbn [for_namelist]; intros H.
  - by inversion H.
  - destruct (endswith n ".xml"); [|exact (IH H)].
    destruct (archive_open archive n); [|discriminate H].
    apply bind_Ok_inv in H as (? & ? & _ & H). discriminate H.
Qed.

(** When [parse_report] returns [False] it has changed nothing. *)
Lemma parse_report_false_unchanged root fname (w : world S) w' :
  parse_report gethostbyaddr root fname w = (Ok false, w') -> w' = w.
Proof.
  unfold parse_report. intros H.
  apply bind_Ok_inv in H as ([report|] & w1 & Hrun & H); [discriminate H|].
  inversion H; subst; clear H.
  destruct (endswith fname ".zip").
  - unfold _process_zipfile in Hrun.
    destruct (files w !! _) as [[|[members|soup|b]]|]; try discriminate Hrun.
    by eapply for_namelist_None.
  - destruct (endswith fname ".gz"); [|by inversion Hrun].
    unfold _process_gzfile in Hrun.
    destruct (endswith _ ".xml"); [|by inversion Hrun].
    destruct (files w !! _) as [[|[members|soup|b]]|]; try discriminate Hrun.
    apply bind_Ok_inv in Hrun as (? & ? & _ & Hrun). discriminate Hrun.
Qed.

(** X12: a gzip file whose name ends in [.xml.gz] passes the name test,
    whatever comes before the suffix: its stream is decoded under the
    archive name, and the result is never [None]. *)
Theorem xml_gz_is_decoded fname stem gzipfile (w : world S) :
  item_last (split "/" fname) = stem ++ ".xml.gz" ->
  files w !! fname = Some (regular (gzip_file gzipfile)) ->
  _process_gzfile gethostbyaddr fname w =
  (report <- _process_xml gethostbyaddr gzipfile (stem ++ ".xml.gz") ;;
   ret (Some report)) w.
Proof.
  intros Hname Hfile. unfold _process_gzfile. rewrite Hname.
  unfold replace. rewrite (replace_gz_keeps_xml stem O) by lia.
  by rewrite Hfile.
Qed.

(** X13: a report that [parse_report] saves is stored under a name without
    any [/]: the directory part of the path never reaches the store. *)
Theorem saved_name_has_no_slash root fname (w : world S) w' :
  parse_report gethostbyaddr root fname w = (Ok true, w') ->
  exists report,
    persistent_storage w' = save_new_report (persistent_storage w) report /\
    no_slash (filename report).
Proof.
  intros H. apply parse_report_saved in H as (report & Hsaved & Hname).
  exists report. split; [exact Hsaved|]. rewrite Hname. apply item_last_no_slash.
Qed.

End report_facts.

(** ** Runs of the driver *)

Section run_facts.

Context {S : Type} `{!Storage S} {py : Interpreter}.
Variable gethostbyaddr : list string -> string -> lookup.
Variable os_walk : string -> list (string * list string * list string).

Lemma for_files_counters root fnames : forall n n_new (w : world S) n' n_new' w',
  for_files gethostbyaddr root fnames n n_new w = (Ok (n', n_new'), w') ->
  n' = (n + length fnames)%nat /\
  (n_new <= n_new')%nat /\ (n_new' <= n_new + length fnames)%nat.
Proof.
  induction fnames as [|fname fnames IH]; intros n n_new w n' n_new' w' H;
    cbn [for_files length] in *.
  - inversion H. lia.
  - destruct (report_already_exists (persistent_storage w) fname).
    + apply IH in H. lia.
    + apply bind_Ok_inv in H as ([] & w1 & _ & H); apply IH in H; lia.
Qed.

Lemma for_walk_counters walk : forall n n_new (w : world S) n' n_new' w',
  for_walk gethostbyaddr walk n n_new w = (Ok (n', n_new'), w') ->
  n' = (n + n_files walk)%nat /\
  (n_new <= n_new')%nat /\ (n_new' <= n_new + n_files walk)%nat.
Proof.
  induction walk as [|[[root directories] fnames] walk IH];
    intros n n_new w n' n_new' w' H; cbn [for_walk n_files foldr snd] in *.
  - inversion H. lia.
  - apply bind_Ok_inv in H as ([n1 m1] & w1 & Hfiles & H).
    apply for_files_counters in Hfiles. apply IH in H. cbn [fst snd] in H.
    fold (n_files walk). lia.
Qed.

(** X14: the two counters of a run that comes to its end: the first is
    the number of files the walk lists, and the second, the number of
    reports saved, does not exceed it. *)
Theorem run_counters report_dir (w : world S) n n_new w' :
  parse_reports_in_directory gethostbyaddr os_walk report_dir w = (Ok (n, n_new), w') ->
  n = n_files (os_walk report_dir) /\ (n_new <= n)%nat.
Proof.
  unfold parse_reports_in_directory. intros H.
  apply for_walk_counters in H. lia.
Qed.

Lemma for_files_settled root fnames : forall n n_new (w : world S),
  Forall (settled gethostbyaddr w root) fnames ->
  for_files gethostbyaddr root fnames n n_new w =
  (Ok ((n + length fnames)%nat, n_new), w).
Proof.
  induction fnames as [|fname fnames IH]; intros n n_new w Hall;
    cbn [for_files length].
  - unfold ret. do 2 f_equal. f_equal. lia.
  - inversion Hall as [|? ? Hhead Htail]; subst.
    replace (n + Datatypes.S (length fnames))%nat
      with (Datatypes.S n + length fnames)%nat by lia.
    destruct (report_already_exists (persistent_storage w) fname) eqn:Hknown;
      [by apply IH|].
    destruct Hhead as [Hk|Hnone]; [congruence|].
    rewrite (bind_Ok_eq _ _ _ _ _ (Hnone w eq_refl)). by apply IH.
Qed.

Lemma for_walk_settled walk : forall n n_new (w : world S),
  each_file (settled gethostbyaddr w) walk ->
  for_walk gethostbyaddr walk n n_new w = (Ok ((n + n_files walk)%nat, n_new), w).
Proof.
  induction walk as [|[[root directories] fnames] walk IH]; intros n n_new w Hall;
    cbn [for_walk n_files foldr snd].
  - unfold ret. do 2 f_equal. f_equal. lia.
  - inversion Hall as [|? ? Hhead Htail]; subst. cbn [fst snd] in Hhead.
    rewrite (bind_Ok_eq _ _ _ _ _ (for_files_settled _ _ _ _ _ Hhead)).
    cbn [fst snd]. fold (n_files walk).
    rewrite (IH _ _ _ Htail). do 2 f_equal. f_equal. lia.
Qed.

(** X15: when the store already knows the name of every file of the walk,
    the run counts the files, parses none of them and leaves the world as
    it is: no file is opened, no address looked up, nothing saved. *)
Theorem known_files_are_skipped report_dir (w : world S) :
  each_file (fun _ fname => report_already_exists (persistent_storage w) fname = true)
            (os_walk report_dir) ->
  parse_reports_in_directory gethostbyaddr os_walk report_dir w =
  (Ok (n_files (os_walk report_dir), O), w).
Proof.
  intros Hknown. unfold parse_reports_in_directory.
  rewrite for_walk_settled; [reflexivity|].
  eapply Forall_impl; [exact Hknown|]. intros triple Hfiles.
  eapply Forall_impl; [exact Hfiles|]. intros fname Hk. by left.
Qed.

#[local] Instance store_grows_preorder : PreOrder (store_grows (S:=S)).
Proof.
  split.
  - intros w. by split.
  - intros w1 w2 w3 [Hf1 Hk1] [Hf2 Hk2]. split; [congruence|auto].
Qed.

Lemma store_grows_lookup ip_address :
  respects store_grows (_lookup_ip (S:=S) gethostbyaddr ip_address).
Proof.
  intros w o w' H.
  destruct (keeps_store_lookup_ip gethostbyaddr ip_address _ _ _ H) as [Hs Hf].
  split; [exact Hf|]. intros fname. by rewrite Hs.
Qed.

Lemma for_namelist_None_any namelist archive archive_name (w : world S) w' :
  for_namelist gethostbyaddr namelist archive archive_name w = (Ok None, w') ->
  forall w2 : world S,
    for_namelist gethostbyaddr namelist archive archive_name w2 = (Ok None, w2).
Proof.
  induction namelist as [|n namelist IH]; cbn [for_namelist]; intros H w2.
  - reflexivity.
  - destruct (endswith n ".xml"); [|exact (IH H w2)].
    destruct (archive_open archive n); [|discriminate H].
    apply bind_Ok_inv in H as (? & ? & _ & H). discriminate H.
Qed.

(** Whether a file yields no report is a matter of the files alone. *)
Lemma parse_report_false_any root fname (w : world S) w' :
  parse_report gethostbyaddr root fname w = (Ok false, w') ->
  forall w2 : world S, files w2 = files w ->
    parse_report gethostbyaddr root fname w2 = (Ok false, w2).
Proof.
  unfold parse_report. intros H w2 Hfiles.
  apply bind_Ok_inv in H as ([report|] & w1 & Hrun & H); [discriminate H|].
  destruct (endswith fname ".zip").
  - assert (Hz : _process_zipfile gethostbyaddr (root ++ "/" ++ fname) w2 = (Ok None, w2)).
    { unfold _process_zipfile in *. rewrite Hfiles.
      destruct (files w !! _) as [[|[members|soup|b]]|]; try discriminate Hrun.
      exact (for_namelist_None_any _ _ _ _ _ Hrun w2). }
    by rewrite (bind_Ok_eq _ _ _ _ _ Hz).
  - destruct (endswith fname ".gz"); [|reflexivity].
    unfold _process_gzfile in *.
    destruct (endswith _ ".xml"); [|reflexivity].
    destruct (files w !! _) as [[|[members|soup|b]]|]; try discriminate Hrun.
    apply bind_Ok_inv in Hrun as (? & ? & _ & Hrun). discriminate Hrun.
Qed.

(** X11: when [parse_report] returns [False] it has changed nothing: no
    report was saved, no address was looked up, no file was written; and
    it returns [False] again, changing nothing, in every world that has
    the same files. *)
Theorem no_report_no_change root fname (w : world S) w' :
  parse_report gethostbyaddr root fname w = (Ok false, w') ->
  w' = w /\
  forall w2 : world S, files w2 = files w ->
    parse_report gethostbyaddr root fname w2 = (Ok false, w2).
Proof.
  intros H. split.
  - by eapply parse_report_false_unchanged.
  - by eapply parse_report_false_any.
Qed.

Lemma settled_mono (w w' : world S) root fname :
  store_grows w w' ->
  settled gethostbyaddr w root fname -> settled gethostbyaddr w' root fname.
Proof.
  intros [Hf Hk] [Hknown|Hnone]; [left; auto|].
  right. intros w2 Hw2. apply Hnone. congruence.
Qed.

(** The two laws of a store that make a second run find nothing new: a
    saved report is known under its file name, and a name once known
    stays known. *)
Hypothesis saved_is_known : forall (st : S) report,
  report_already_exists (save_new_report st report) (filename report) = true.
Hypothesis known_stays_known : forall (st : S) report fname,
  report_already_exists st fname = true ->
  report_already_exists (save_new_report st report) fname = true.

Lemma store_grows_save (w : world S) report :
  store_grows w (World (_rdns_records w) (gethostbyaddr_calls w) (files w)
                       (save_new_report (persistent_storage w) report)).
Proof. split; [reflexivity|]. intros fname. cbn. apply known_stays_known. Qed.

Lemma for_files_settles root fnames : forall n n_new (w : world S) counters w',
  Forall no_slash fnames ->
  for_files gethostbyaddr root fnames n n_new w = (Ok counters, w') ->
  store_grows w w' /\ Forall (settled gethostbyaddr w' root) fnames.
Proof.
  induction fnames as [|fname fnames IH]; intros n n_new w counters w' Hns H.
  - inversion H; subst. split; [reflexivity | constructor].
  - inversion Hns as [|? ? Hhead Htail]; subst. cbn [for_files] in H.
    destruct (report_already_exists (persistent_storage w) fname) eqn:Hknown.
    + destruct (IH _ _ _ _ _ Htail H) as [Hgrow Hall].
      split; [exact Hgrow|]. constructor; [|exact Hall].
      eapply settled_mono; [exact Hgrow|]. by left.
    + apply bind_Ok_inv in H as (parsed & w1 & Hparse & H).
      assert (Hrest : store_grows w1 w' /\ Forall (settled gethostbyaddr w' root) fnames)
        by (destruct parsed; exact (IH _ _ _ _ _ Htail H)).
      destruct Hrest as [Hgrow Hall].
      assert (Hstep : store_grows w w1).
      { revert Hparse. apply (respects_parse_report store_grows).
        - apply store_grows_lookup.
        - apply store_grows_save. }
      split; [by etransitivity|]. constructor; [|exact Hall].
      eapply settled_mono; [exact Hgrow|].
      destruct parsed.
      * left.
        destruct (parse_report_saved _ _ _ _ _ Hparse) as (report & -> & Hname).
        rewrite item_last_join in Hname. unfold item_last in Hname.
        rewrite (split_no_sep _ _ Hhead) in Hname. cbn in Hname.
        rewrite <- Hname. apply saved_is_known.
      * right. pose proof (parse_report_false_unchanged _ _ _ _ _ Hparse) as ->.
        exact (parse_report_false_any _ _ _ _ Hparse).
Qed.

Lemma for_walk_settles walk : forall n n_new (w : world S) counters w',
  each_file (fun _ fname => no_slash fname) walk ->
  for_walk gethostbyaddr walk n n_new w = (Ok counters, w') ->
  store_grows w w' /\ each_file (settled gethostbyaddr w') walk.
Proof.
  induction walk as [|[[root directories] fnames] walk IH];
    intros n n_new w counters w' Hns H.
  - inversion H; subst. split; [reflexivity | constructor].
  - inversion Hns as [|? ? Hhead Htail]; subst. cbn [fst snd] in Hhead.
    cbn [for_walk] in H. apply bind_Ok_inv in H as (c1 & w1 & Hfiles & H).
    destruct (for_files_settles _ _ _ _ _ _ _ Hhead Hfiles) as [Hgrow1 Hset1].
    destruct (IH _ _ _ _ _ Htail H) as [Hgrow2 Hset2].
    split; [by etransitivity|]. constructor; [|exact Hset2].
    cbn [fst snd]. eapply Forall_impl; [exact Hset1|].
    intros fname. by apply settled_mono.
Qed.

(** X16: with a store in which a saved report is known under its file
    name and known names stay known, a run that came to its end can be
    repeated at once: the second run counts the same files, saves no new
    report and changes nothing. *)
Theorem rerun_finds_nothing_new report_dir (w : world S) counters w1 :
  each_file (fun _ fname => no_slash fname) (os_walk report_dir) ->
  parse_reports_in_directory gethostbyaddr os_walk report_dir w = (Ok counters, w1) ->
  parse_reports_in_directory gethostbyaddr os_walk report_dir w1 =
  (Ok (n_files (os_walk report_dir), O), w1).
Proof.
  unfold parse_reports_in_directory. intros Hns Hrun.
  apply for_walk_settles in Hrun as [_ Hsettled]; [|exact Hns].
  by rewrite for_walk_settled.
Qed.

End run_facts.

(** ** The script *)

Section main_facts.

Context {S : Type} `{!Storage S} {py : Interpreter}.
Variable gethostbyaddr : list string -> string -> lookup.
Variable os_walk : string -> list (string * list string * list string).
Variable pickle_dump : gmap string (option string) -> string.
Variable os_makedirs : string -> M S unit.
Variable write_file : string -> string -> M S unit.

#[local] Existing Instance cache_grows_preorder.

Lemma load_rdns_records_world rdns_filename rdns_directory (w : world S) o w' :
  load_rdns_records rdns_filename rdns_directory w = (o, w') -> w' = w.
Proof.
  unfold load_rdns_records, pickle_load_text. intros H.
  destruct (os_path_isfile w _); [|by inversion H].
  destruct (files w !! _) as [[|data]|]; try (by inversion H).
  destruct (decodes_as_text data); by inversion H.
Qed.

(** [load_rdns_records] returns only when there is no file, and then it
    returns the empty cache. *)
Lemma load_rdns_records_Ok rdns_filename rdns_directory (w : world S) loaded w' :
  load_rdns_records rdns_filename rdns_directory w = (Ok loaded, w') ->
  loaded = ∅ /\ os_path_isfile w (os_path_join rdns_directory rdns_filename) = false.
Proof.
  unfold load_rdns_records, pickle_load_text, os_path_isfile. intros H.
  destruct (files w !! _) as [[|data]|]; try (by inversion H).
  destruct (decodes_as_text data); discriminate H.
Qed.

Lemma run_cache_grows report_dir (w : world S) o w' :
  parse_reports_in_directory gethostbyaddr os_walk report_dir w = (o, w') ->
  cache_grows w w'.
Proof.
  apply (respects_parse_reports_in_directory cache_grows).
  - apply cache_grows_lookup.
  - apply cache_grows_save.
Qed.

(** X20: with an operating system that leaves the bytes of a successful
    write in the file, the script comes to its end only when it found no
    cache file; it then ran over [./reports] with an empty cache and left
    the pickle of the cache of that run in the cache file; and the next
    run of the script raises a [TypeError] or a [UnicodeDecodeError]
    while it loads that file, before it looks at any report. *)
Theorem script_runs_once (w : world S) w' :
  (forall path data (w1 w2 : world S),
     write_file path data w1 = (Ok tt, w2) ->
     files w2 !! path = Some (regular (bytes data))) ->
  main gethostbyaddr os_walk pickle_dump os_makedirs write_file w = (Ok tt, w') ->
  os_path_isfile w "./results/rdns.pickle" = false /\
  (exists counters w3,
     parse_reports_in_directory gethostbyaddr os_walk "./reports"
       (World ∅ (gethostbyaddr_calls w) (files w) (persistent_storage w))
     = (Ok counters, w3) /\
     files w' !! "./results/rdns.pickle"
     = Some (regular (bytes (pickle_dump (_rdns_records w3))))) /\
  exists e,
    main gethostbyaddr os_walk pickle_dump os_makedirs write_file w' = (Raise e, w') /\
    (e = TypeError \/ e = UnicodeDecodeError).
Proof.
  unfold main at 1. intros Hwrite H.
  apply bind_Ok_inv in H as (loaded & w1 & Hload & H).
  pose proof (load_rdns_records_world _ _ _ _ _ Hload) as ->.
  apply load_rdns_records_Ok in Hload as (-> & Hnofile).
  apply bind_Ok_inv in H as ([] & w2 & Hset & H). inversion Hset; subst w2; clear Hset.
  apply bind_Ok_inv in H as (counters & w3 & Hrun & Hsave).
  unfold save_rdns_records in Hsave.
  apply bind_Ok_inv in Hsave as (u & w4 & _ & Hw). apply Hwrite in Hw.
  change (os_path_join "./results" "rdns.pickle") with "./results/rdns.pickle"
    in Hnofile, Hw.
  split_and!; [exact Hnofile | by exists counters, w3 |].
  destruct (decodes_as_text (bytes (pickle_dump (_rdns_records w3)))) eqn:Hd;
    eexists;
    (split;
     [unfold main; apply bind_Raise_eq;
      unfold load_rdns_records, os_path_isfile, pickle_load_text;
      change (os_path_join "./results" "rdns.pickle") with "./results/rdns.pickle";
      rewrite Hw, Hd; reflexivity
     |auto]).
Qed.

(** X21: when loading the cache raises, or the run over [./reports]
    raises, the script ends with that exception and [save_rdns_records]
    is not called: the files are as they were when the script started,
    and what the run looked up is not saved. *)
Theorem failed_run_is_not_saved (w : world S) e w' :
  load_rdns_records "rdns.pickle" "./results" w = (Raise e, w') \/
  (exists loaded,
     load_rdns_records "rdns.pickle" "./results" w = (Ok loaded, w) /\
     parse_reports_in_directory gethostbyaddr os_walk "./reports"
       (World loaded (gethostbyaddr_calls w) (files w) (persistent_storage w))
     = (Raise e, w')) ->
  main gethostbyaddr os_walk pickle_dump os_makedirs write_file w = (Raise e, w') /\
  files w' = files w.
Proof.
  unfold main. intros [Hload | (loaded & Hload & Hrun)].
  - split; [exact (bind_Raise_eq _ _ _ _ _ Hload)|].
    by rewrite (load_rdns_records_world _ _ _ _ _ Hload).
  - split.
    + rewrite (bind_Ok_eq _ _ _ _ _ Hload). cbv beta.
      unfold bind at 1. exact (bind_Raise_eq _ _ _ _ _ Hrun).
    + apply run_cache_grows in Hrun as (Hfiles & _). exact Hfiles.
Qed.

End main_facts.

(** ** What a run asks the network *)

Section query_facts.

Context {S : Type} `{!Storage S} {py : Interpreter}.
Variable gethostbyaddr : list string -> string -> lookup.
Variable os_walk : string -> list (string * list string * list string).

#[local] Instance queries_only_misses_preorder : PreOrder (@queries_only_misses S).
Proof.
  split.
  - intros w. split; [reflexivity|]. exists []. by rewrite app_nil_r.
  - intros w1 w2 w3 (Hc1 & new1 & Hq1 & Hm1) (Hc2 & new2 & Hq2 & Hm2).
    split; [by etransitivity|]. exists (new1 ++ new2)%list. split.
    + by rewrite Hq2, Hq1, app_assoc.
    + apply Forall_app. split; [exact Hm1|].
      eapply Forall_impl; [exact Hm2|]. intros ip_address Hnone.
      destruct (_rdns_records w1 !! ip_address) as [h|] eqn:Hin; [|reflexivity].
      eapply lookup_weaken in Hin; [|exact Hc1]. congruence.
Qed.

Lemma queries_only_misses_lookup ip_address :
  respects queries_only_misses (_lookup_ip (S:=S) gethostbyaddr ip_address).
Proof.
  intros w o w' H. unfold _lookup_ip in H.
  destruct (_rdns_records w !! ip_address) as [h|] eqn:Hc.
  - inversion H; subst. reflexivity.
  - destruct (gethostbyaddr (gethostbyaddr_calls w) ip_address) as [hostname|e].
    + inversion H; subst; clear H. split; cbn.
      * by apply insert_subseteq.
      * exists [ip_address]. split; [reflexivity|]. by constructor.
    + assert (w' = World (_rdns_records w) (gethostbyaddr_calls w ++ [ip_address])
                         (files w) (persistent_storage w)) as ->
        by (destruct e; inversion H; reflexivity).
      split; cbn; [reflexivity|].
      exists [ip_address]. split; [reflexivity|]. by constructor.
Qed.

(** X19: an address that is in the cache when a run starts is never
    looked up during the run: the queries the run adds to the record are
    all for addresses the cache did not have, and the cache keeps every
    entry it had. *)
Theorem cached_addresses_are_not_queried report_dir (w : world S) :
  queries_only_misses w
    (snd (parse_reports_in_directory gethostbyaddr os_walk report_dir w)).
Proof.
  destruct (parse_reports_in_directory gethostbyaddr os_walk report_dir w)
    as [o w'] eqn:H.
  revert H. apply (respects_parse_reports_in_directory queries_only_misses).
  - apply queries_only_misses_lookup.
  - intros w0 report. split; cbn; [reflexivity|].
    exists []. by rewrite app_nil_r.
Qed.

End query_facts.

(** ** Instances of the further properties *)

Lemma one_record_per_element_witness :
  exists report w',
    _process_xml one_host (readable (feedback [good_record; record_without_spf]))
      "a.zip" (fresh ∅) = (Ok report, w') /\
    construct_all one_host [good_record; record_without_spf] (fresh ∅)
    = (Ok (records report), w').
Proof.
  do 2 eexists. split; [vm_compute; reflexivity|].
  edestruct (one_record_per_element one_host
               (readable (feedback [good_record; record_without_spf])) "a.zip" (fresh ∅))
    as (report_xml & Hxml & Hall & _); [vm_compute; reflexivity|].
  injection Hxml as <-. exact Hall.
Defined.

Lemma report_identity_witness :
  exists report w',
    _process_xml one_host (readable (feedback [good_record])) "a.zip" (fresh ∅)
    = (Ok report, w') /\
    filename report = "a.zip".
Proof.
  do 2 eexists. split; [vm_compute; reflexivity|].
  refine (proj1 (report_identity one_host (readable (feedback [good_record])) "a.zip"
                   (fresh ∅) _ _ _)).
  vm_compute; reflexivity.
Defined.

Lemma first_xml_member_wins_witness :
  exists xml_file,
    archive_open two_members_of_one_name "report.xml" = Some xml_file /\
    _process_zipfile one_host "./reports/twice.zip" (fresh zip_with_two_members_of_one_name) =
    (report <- _process_xml one_host xml_file "twice.zip" ;; ret (Some report))
      (fresh zip_with_two_members_of_one_name).
Proof.
  edestruct (first_xml_member_wins one_host "./reports/twice.zip"
               (fresh zip_with_two_members_of_one_name) two_members_of_one_name
               [] "report.xml"
               ["notes.txt"; "report.xml"])
    as (front & xml_file & back & Harch & Hback & Hrun);
    [vm_compute; reflexivity | reflexivity | constructor | reflexivity |].
  exists xml_file. split; [|exact Hrun].
  apply archive_open_last. by exists front, back.
Defined.

Lemma no_report_no_change_witness :
  exists w',
    parse_report one_host "./reports" "notes.txt" (fresh one_zip) = (Ok false, w') /\
    w' = fresh one_zip.
Proof.
  eexists. split; [vm_compute; reflexivity|].
  refine (proj1 (no_report_no_change one_host "./reports" "notes.txt" (fresh one_zip) _ _)).
  vm_compute; reflexivity.
Defined.

Lemma xml_gz_is_decoded_witness :
  _process_gzfile one_host "./reports/mail.xml.gz" (fresh two_gz) =
  (report <- _process_xml one_host (readable (feedback [good_record])) ("mail" ++ ".xml.gz") ;;
   ret (Some report)) (fresh two_gz).
Proof.
  refine (xml_gz_is_decoded one_host "./reports/mail.xml.gz" "mail"
            (readable (feedback [good_record])) (fresh two_gz) _ _);
    vm_compute; reflexivity.
Defined.

Lemma saved_name_has_no_slash_witness :
  exists w' report,
    parse_report one_host "./reports/a" "report.zip" (fresh one_zip) = (Ok true, w') /\
    persistent_storage w' = save_new_report [] report /\
    no_slash (filename report).
Proof.
  eexists.
  edestruct (saved_name_has_no_slash one_host "./reports/a" "report.zip" (fresh one_zip))
    as (report & Hsaved & Hname); [vm_compute; reflexivity|].
  exists report. split; [vm_compute; reflexivity|]. split; assumption.
Defined.

Lemma run_counters_witness :
  exists w',
    parse_reports_in_directory one_host walk_one_zip "./reports" (fresh one_zip)
    = (Ok (1%nat, 1%nat), w') /\
    1%nat = n_files (walk_one_zip "./reports") /\ (1 <= 1)%nat.
Proof.
  eexists. split; [vm_compute; reflexivity|].
  refine (run_counters one_host walk_one_zip "./reports" (fresh one_zip) _ _ _ _).
  vm_compute; reflexivity.
Defined.

Lemma known_files_are_skipped_witness :
  parse_reports_in_directory one_host walk_one_zip "./reports"
    (World ∅ [] one_zip store_with_report)
  = (Ok (n_files (walk_one_zip "./reports"), O), World ∅ [] one_zip store_with_report).
Proof.
  refine (known_files_are_skipped one_host walk_one_zip "./reports"
            (World ∅ [] one_zip store_with_report) _).
  repeat constructor.
Defined.

Lemma rerun_finds_nothing_new_witness :
  exists w1,
    parse_reports_in_directory one_host walk_one_zip "./reports" (fresh one_zip)
    = (Ok (1%nat, 1%nat), w1) /\
    parse_reports_in_directory one_host walk_one_zip "./reports" w1
    = (Ok (n_files (walk_one_zip "./reports"), O), w1).
Proof.
  eexists. split; [vm_compute; reflexivity|].
  refine (rerun_finds_nothing_new one_host walk_one_zip
            list_storage_saved_is_known list_storage_known_stays_known
            "./reports" (fresh one_zip) (1%nat, 1%nat) _ _ _).
  - repeat constructor; vm_compute; intuition discriminate.
  - vm_compute; reflexivity.
Defined.

Lemma script_runs_once_witness :
  exists w',
    main one_host walk_one_zip dump_lines makedirs_one_level write_at_once (fresh one_zip)
    = (Ok tt, w') /\
    exists e,
      main one_host walk_one_zip dump_lines makedirs_one_level write_at_once w'
      = (Raise e, w') /\
      (e = TypeError \/ e = UnicodeDecodeError).
Proof.
  eexists. split; [vm_compute; reflexivity|].
  edestruct (script_runs_once one_host walk_one_zip dump_lines makedirs_one_level
               write_at_once (fresh one_zip))
    as (_ & _ & Hagain);
    [exact write_at_once_written | vm_compute; reflexivity |].
  exact Hagain.
Defined.

Lemma failed_run_is_not_saved_witness :
  exists w',
    main one_host walk_bad_good dump_lines makedirs_one_level write_at_once
      (fresh malformed_then_good) = (Raise AttributeError, w') /\
    files w' = malformed_then_good.
Proof.
  eexists.
  refine (failed_run_is_not_saved one_host walk_bad_good dump_lines makedirs_one_level
            write_at_once (fresh malformed_then_good) AttributeError _ _).
  right. exists ∅. split; vm_compute; reflexivity.
Defined.

(** ** Examples *)

(** The zip archive of the specification: one [report.xml] with one record
    from 192.0.2.1, count 5, disposition none, SPF and DKIM passed. *)
Example zip_with_one_record :
  exists w' record,
    parse_report one_host "./reports/a" "report.zip" (fresh one_zip) = (Ok true, w') /\
    records <$> persistent_storage w' = [[record]] /\
    ip record = "192.0.2.1" /\ count record = 5 /\
    disposition record = "none" /\
    spf_pass record = Some true /\ dkim_pass record = Some true.
Proof.
  do 2 eexists.
  split; [vm_compute; reflexivity|].
  split; [vm_compute; reflexivity|].
  vm_compute. repeat split.
Qed.

(** [mail.xml.gz] is decoded, [mail.txt.gz] is passed over. *)
Example gz_names :
  (exists report w',
     _process_gzfile one_host "./reports/mail.xml.gz" (fresh two_gz)
     = (Ok (Some report), w')) /\
  _process_gzfile one_host "./reports/mail.txt.gz" (fresh two_gz)
  = (Ok None, fresh two_gz).
Proof. split; [do 2 eexists|]; vm_compute; reflexivity. Qed.

(** A lookup that times out is not caught: the exception leaves
    [_lookup_ip], and nothing is cached. *)
Example timeout_leaves_lookup :
  exists w',
    _lookup_ip unreachable "203.0.113.9" (fresh ∅) = (Raise timeout, w') /\
    _rdns_records w' = ∅.
Proof. eexists. split; [vm_compute; reflexivity | reflexivity]. Qed.

(** Of two members with the same name the later one is decoded: the
    archive whose first [report.xml] has no metadata yields the report of
    its second [report.xml]. *)
Example later_member_is_decoded :
  exists report w',
    _process_zipfile one_host "./reports/twice.zip"
      (fresh zip_with_two_members_of_one_name) = (Ok (Some report), w') /\
    report_id report = "r-1" /\ length (records report) = 1%nat.
Proof.
  do 2 eexists. split; [vm_compute; reflexivity|].
  split; vm_compute; reflexivity.
Qed.

(** A cache file written by [save_rdns_records] makes [load_rdns_records]
    raise. *)
Example saved_cache_raises_on_load :
  exists w',
    save_rdns_records dump_lines makedirs_one_level write_at_once
      two_addresses "rdns.pickle" "./results" (fresh ∅) = (Ok tt, w') /\
    load_rdns_records "rdns.pickle" "./results" w' = (Raise TypeError, w').
Proof.
  eexists. split; vm_compute; reflexivity.
Qed.

(** A second run over the same directory with the store of the first finds
    one file and no new report. *)
Example second_run_saves_nothing :
  exists w1 w2,
    parse_reports_in_directory one_host walk_one_zip "./reports" (fresh one_zip)
    = (Ok (1%nat, 1%nat), w1) /\
    parse_reports_in_directory one_host walk_one_zip "./reports" w1
    = (Ok (1%nat, 0%nat), w2) /\
    persistent_storage w2 = persistent_storage w1.
Proof.
  do 2 eexists.
  split; [vm_compute; reflexivity|].
  split; vm_compute; reflexivity.
Qed.
